(** * Pink: differential inverse kinematics -- task and barrier assembly

    A shallow embedding of the Python sources

      - [pink/bounded_tangent.py]            (class [BoundedTangent])
      - [pink/tasks/body_task.py]            (class [BodyTask])
      - [pink/tasks/damping_task.py]         (class [DampingTask])
      - [pink/barriers/position_barrier.py]  (class [PositionCBF])

    Python exceptions are values of [PyError] carried by the [result]
    monad; attribute updates are explicit state passing.  NumPy arrays
    are lists (a matrix is the list of its rows).  Floating-point numbers
    are idealised as exact numbers: rationals ([Q], compared up to [==])
    wherever the code only adds, multiplies and compares, and reals
    ([R]) in the barrier, whose default comparison function takes a
    Euclidean norm. *)

From Stdlib Require Import String Reals.
From Stdlib Require Import List ZArith QArith Qabs Bool Lia Psatz Setoid Morphisms Sorted.
Import ListNotations.

Set Implicit Arguments.

(** ** Python exceptions and results *)

Module Py.

Inductive PyError : Type :=
| TargetNotSet (msg : string)
| AssertionError (msg : string)
| AttributeError (name : string)
| TypeError
| ValueError
| IndexError.

Inductive result (A : Type) : Type :=
| Ok (a : A)
| Raise (e : PyError).

Arguments Ok {A} a.
Arguments Raise {A} e.

Definition bind {A B : Type} (c : result A) (k : A -> result B) : result B :=
  match c with
  | Ok a => k a
  | Raise e => Raise e
  end.

Definition fmap {A B : Type} (f : A -> B) (c : result A) : result B :=
  bind c (fun a => Ok (f a)).

Fixpoint mapM {A B : Type} (f : A -> result B) (l : list A) : result (list B) :=
  match l with
  | [] => Ok []
  | x :: l' => bind (f x) (fun y => bind (mapM f l') (fun ys => Ok (y :: ys)))
  end.

Definition succeeds {A : Type} (c : result A) : bool :=
  match c with Ok _ => true | Raise _ => false end.

(** [range(a, b)] *)
Definition py_range (a b : Z) : list Z :=
  map (fun k => (a + Z.of_nat k)%Z) (seq 0 (Z.to_nat (b - a))).

(** One bound of a slice, as [slice.indices] normalises it for a
    sequence of length [len]: a negative bound counts from the end, and
    both are clipped to [0..len]. *)
Definition py_slice_bound (len i : Z) : Z :=
  if (i <? 0)%Z then Z.max 0 (i + len) else Z.min i len.

(** [l[start:stop]] *)
Definition py_slice {A : Type} (l : list A) (start stop : Z) : list A :=
  let len := Z.of_nat (length l) in
  let s := py_slice_bound len start in
  let e := py_slice_bound len stop in
  firstn (Z.to_nat (e - s)) (skipn (Z.to_nat s) l).

End Py.

Import Py.

Declare Scope py_scope.
Delimit Scope py_scope with py.
Notation "x <- c ;; k" := (bind c (fun x => k))
  (at level 61, c at next level, right associativity) : py_scope.

(** ** NumPy on exact numbers *)

Module Np.

Definition vec := list Q.
Definition mat := list (list Q).

Fixpoint zip_with {A B C : Type} (f : A -> B -> C) (u : list A) (v : list B) : list C :=
  match u, v with
  | a :: u', b :: v' => f a b :: zip_with f u' v'
  | _, _ => []
  end.

Definition qsum (l : list Q) : Q := fold_right Qplus 0 l.

(** [u @ v] on two 1-D arrays of one length. *)
Fixpoint dot (u v : vec) : Q :=
  match u, v with
  | a :: u', b :: v' => a * b + dot u' v'
  | _, _ => 0
  end.

Definition ncols (M : mat) : nat := length (hd [] M).
Definition col (j : nat) (M : mat) : vec := map (fun r => nth j r 0) M.

(** [M.T] *)
Definition transpose (M : mat) : mat := map (fun j => col j M) (seq 0 (ncols M)).

(** [M @ v], [v @ M] and [A @ B]. *)
Definition matvec (M : mat) (v : vec) : vec := map (fun r => dot r v) M.
Definition vecmat (v : vec) (M : mat) : vec := map (fun j => dot v (col j M)) (seq 0 (ncols M)).
Definition matmul (A B : mat) : mat := map (fun r => vecmat r B) A.

Definition vscale (s : Q) (v : vec) : vec := map (Qmult s) v.
Definition vneg (v : vec) : vec := map Qopp v.
Definition mscale (s : Q) (M : mat) : mat := map (vscale s) M.
Definition madd (A B : mat) : mat := zip_with (zip_with Qplus) A B.

(** [np.eye(n)], [np.diag(v)], [np.zeros(n)], [np.ones(n)]. *)
Definition unit_row (n i : nat) : vec := map (fun j => if Nat.eqb i j then 1 else 0) (seq 0 n).
Definition eye (n : nat) : mat := map (unit_row n) (seq 0 n).
Definition diag (v : vec) : mat :=
  map (fun i => map (fun j => if Nat.eqb i j then nth i v 0 else 0) (seq 0 (length v)))
      (seq 0 (length v)).
Definition ones (n : nat) : vec := repeat 1 n.

(** [np.zeros(n)] for a Python integer [n]: a negative length is refused. *)
Definition zeros (n : Z) : result vec :=
  if (n <? 0)%Z then Raise ValueError else Ok (repeat 0 (Z.to_nat n)).

(** Integer index arrays.  [np.array] of a list of Python integers has
    an integer dtype, except for the empty list, which NumPy turns into
    an empty [float64] array. *)
Inductive dtype : Type := int64 | float64.

Record index_array : Type := mk_index_array { idx_dtype : dtype; idx_data : list Z }.

Definition array_of_ints (l : list Z) : index_array :=
  {| idx_dtype := match l with [] => float64 | _ :: _ => int64 end; idx_data := l |}.

(** [a[i]] for one integer: negative indices count from the end, and
    anything outside [-len .. len-1] is an [IndexError]. *)
Definition getitem {A : Type} (a : list A) (i : Z) : result A :=
  let n := Z.of_nat (length a) in
  if ((- n <=? i) && (i <? n))%Z then
    match nth_error a (Z.to_nat (if (i <? 0)%Z then i + n else i)) with
    | Some x => Ok x
    | None => Raise IndexError
    end
  else Raise IndexError.

(** [a[idx]] for an index array (gather along the first axis).  NumPy
    refuses an array that is not of integer (or boolean) type, the empty
    [float64] array included. *)
Definition take {A : Type} (a : list A) (idx : index_array) : result (list A) :=
  match idx_dtype idx with
  | float64 => Raise IndexError
  | int64 => mapM (getitem a) (idx_data idx)
  end.

(** Pointwise equality of rational vectors and matrices. *)
Definition veq (u v : vec) : Prop := Forall2 Qeq u v.
Definition meq (A B : mat) : Prop := Forall2 veq A B.

Definition Qltb (x y : Q) : bool := negb (Qle_bool y x).

End Np.

Import Np.

(** ** Limits that may be infinite *)

(** Position and velocity limits are floats that may be [+inf] or
    [-inf] (an unbounded joint). *)
Inductive xfloat : Type :=
| NegInf
| Fin (q : Q)
| PosInf.

(** [a < b] *)
Definition xlt (a b : xfloat) : bool :=
  match a, b with
  | NegInf, NegInf => false
  | NegInf, _ => true
  | Fin x, Fin y => Qltb x y
  | Fin _, PosInf => true
  | Fin _, NegInf => false
  | PosInf, _ => false
  end.

(** [a + q] for a finite [q] *)
Definition xadd (a : xfloat) (q : Q) : xfloat :=
  match a with
  | Fin x => Fin (x + q)
  | NegInf => NegInf
  | PosInf => PosInf
  end.

(** ** The robot model (Pinocchio's [pin.Model], the fields that are read) *)

Record JointModel : Type := mk_joint {
  idx_q : Z;   (* first configuration coordinate; negative for the universe *)
  nq : Z;      (* number of configuration coordinates *)
  idx_v : Z;   (* first tangent coordinate *)
  nv : Z       (* number of tangent coordinates *)
}.

Record Model : Type := mk_model {
  joints : list JointModel;
  model_nq : nat;
  model_nv : nat;
  upperPositionLimit : list xfloat;
  lowerPositionLimit : list xfloat;
  velocityLimit : list xfloat
}.

(** ** pink/bounded_tangent.py *)

Module BoundedTangent.

(** The constants [1e20] and [1e-10] of the source. *)
Definition unbounded_threshold : Q := (10 ^ 20)%Z # 1.
Definition min_width : Q := 1 # (10 ^ 10).

Record t : Type := mk {
  dim : nat;
  indices : index_array;
  bounded_joints : list JointModel;      (* [self.joints] *)
  projection_matrix : option mat;
  velocity_limit : option (list xfloat);
  (* Modelled from the spec: [self.space], the parent space declared by
     [VectorSpace] in pink/utils (not in src); its [dim] is the full
     tangent-space dimension [tangent_dim], that is [model.nv]. *)
  space_dim : nat
}.

(** Lines 51-54: the boolean array [has_configuration_limit]. *)
Definition has_configuration_limit (model : Model) : list bool :=
  zip_with andb
    (map (fun u => xlt u (Fin unbounded_threshold)) (upperPositionLimit model))
    (zip_with (fun u l => xlt (xadd l min_width) u)
       (upperPositionLimit model) (lowerPositionLimit model)).

(** Lines 59-62: the filter of the list comprehension. *)
Definition joint_is_bounded (hcl : list bool) (joint : JointModel) : bool :=
  (0 <=? idx_q joint)%Z
  && forallb (fun b => b) (py_slice hcl (idx_q joint) (idx_q joint + nq joint)).

(** Lines 65-67: the loop that extends [indices]. *)
Definition collect_indices (js : list JointModel) : list Z :=
  fold_left (fun acc joint => acc ++ py_range (idx_v joint) (idx_v joint + nv joint)) js [].

(** [BoundedTangent.__init__] *)
Definition __init__ (model : Model) : result t :=
  let hcl := has_configuration_limit model in
  let js := filter (joint_is_bounded hcl) (joints model) in
  let indices := array_of_ints (collect_indices js) in
  let dim := length (idx_data indices) in
  (projection_matrix <-
     (if (0 <? dim)%nat then fmap Some (take (eye (model_nv model)) indices) else Ok None) ;;
   velocity_limit <-
     (if (0 <? length js)%nat then fmap Some (take (velocityLimit model) indices) else Ok None) ;;
   Ok {| dim := dim;
         indices := indices;
         bounded_joints := js;
         projection_matrix := projection_matrix;
         velocity_limit := velocity_limit;
         space_dim := model_nv model |})%py.

(** [BoundedTangent.project] *)
Definition project {A : Type} (self : t) (v : list A) : result (list A) :=
  if (length v =? space_dim self)%nat then take v (indices self)
  else Raise (AssertionError "Dimension mismatch").

End BoundedTangent.

(** ** pink/tasks/body_task.py *)

(** The kinematics provider: what [ConfiguredRobot] and [body_box_minus]
    (pink/configured_robot.py and pink/tasks/utils.py, not in src) supply.
    The provider answers for every body it is asked about; a body
    Jacobian has six rows over the tangent space and a twist has six
    coordinates. *)
Class Kinematics : Type := {
  SE3 : Type;
  ConfiguredRobot : Type;
  robot_nv : ConfiguredRobot -> nat;
  get_transform_body_to_world : ConfiguredRobot -> string -> SE3;
  get_body_jacobian : ConfiguredRobot -> string -> mat;
  body_box_minus : SE3 -> SE3 -> vec;
  get_body_jacobian_rows : forall robot body, length (get_body_jacobian robot body) = 6%nat;
  get_body_jacobian_cols : forall robot body,
    Forall (fun row => length row = robot_nv robot) (get_body_jacobian robot body);
  body_box_minus_length : forall a b, length (body_box_minus a b) = 6%nat
}.

Module BodyTask.

(** [Union[float, Sequence[float]]] *)
Inductive cost_input : Type :=
| CostFloat (c : Q)
| CostSeq (l : list Q).

Section WithProvider.

Context {K : Kinematics}.

(** The [gain] attribute is declared by the base class [Task]
    (pink/tasks/task.py, not in src) and read by [compute_task_dynamics];
    [BodyTask.__init__] does not assign it, so a new task carries the
    class default, a parameter here. *)
Variable Task_gain : Q.

Record t : Type := mk {
  body : string;
  cost : vec;
  error_in_body : vec;
  lm_damping : Q;
  transform_target_to_world : option SE3;
  gain : Q
}.

Definition with_cost (self : t) (c : vec) : t :=
  mk (body self) c (error_in_body self) (lm_damping self)
     (transform_target_to_world self) (gain self).

Definition with_error_in_body (self : t) (e : vec) : t :=
  mk (body self) (cost self) e (lm_damping self)
     (transform_target_to_world self) (gain self).

Definition with_target (self : t) (T : option SE3) : t :=
  mk (body self) (cost self) (error_in_body self) (lm_damping self) T (gain self).

(** Methods run in a state-and-exception monad over the task object:
    an exception keeps whatever was written before it was raised. *)
Definition M (A : Type) : Type := t -> result A * t.

Definition ret {A : Type} (a : A) : M A := fun self => (Ok a, self).
Definition raise {A : Type} (e : PyError) : M A := fun self => (Raise e, self).
Definition get : M t := fun self => (Ok self, self).
Definition put (self' : t) : M unit := fun _ => (Ok tt, self').
Definition lift {A : Type} (c : result A) : M A := fun self => (c, self).

Definition mbind {A B : Type} (m : M A) (k : A -> M B) : M B :=
  fun self =>
    match m self with
    | (Ok a, self') => k a self'
    | (Raise e, self') => (Raise e, self')
    end.

Notation "x <~ c ;; k" := (mbind c (fun x => k))
  (at level 61, c at next level, right associativity).

(** [assert cond] (no message). *)
Definition py_assert (cond : bool) : result unit :=
  if cond then Ok tt else Raise (AssertionError EmptyString).

(** Lines 120-123 and 138-141: the check on a cost argument. *)
Definition check_cost (c : cost_input) : result unit :=
  match c with
  | CostFloat x => py_assert (Qle_bool 0 x)
  | CostSeq l => py_assert (forallb (Qle_bool 0) l)
  end.

(** [a[start:start+3] = c] on a 1-D array: a float fills the slice, a
    sequence of three entries is copied, a sequence of one entry is
    broadcast, and any other length is a [ValueError]. *)
Definition assign_slice3 (a : vec) (start : nat) (c : cost_input) : result vec :=
  let fill (x y z : Q) := firstn start a ++ [x; y; z] ++ skipn (start + 3) a in
  match c with
  | CostFloat x => Ok (fill x x x)
  | CostSeq [x] => Ok (fill x x x)
  | CostSeq [x; y; z] => Ok (fill x y z)
  | CostSeq _ => Raise ValueError
  end.

Definition set_position_cost (position_cost : cost_input) : M unit :=
  _ <~ lift (check_cost position_cost) ;;
  self <~ get ;;
  cost' <~ lift (assign_slice3 (cost self) 0 position_cost) ;;
  put (with_cost self cost').

Definition set_orientation_cost (orientation_cost : cost_input) : M unit :=
  _ <~ lift (check_cost orientation_cost) ;;
  self <~ get ;;
  cost' <~ lift (assign_slice3 (cost self) 3 orientation_cost) ;;
  put (with_cost self cost').

(** [BodyTask.__init__]; the object exists only if both setters return. *)
Definition __init__ (body : string) (position_cost orientation_cost : cost_input)
    (lm_damping : Q) : result t :=
  let self := mk body (ones 6) (repeat 0 6) lm_damping None Task_gain in
  match (_ <~ set_position_cost position_cost ;;
         set_orientation_cost orientation_cost) self with
  | (Ok _, self') => Ok self'
  | (Raise e, _) => Raise e
  end.

(** [set_target]; [SE3.copy] is the identity on values. *)
Definition set_target (transform_target_to_world : SE3) : M unit :=
  self <~ get ;;
  put (with_target self (Some transform_target_to_world)).

Definition compute_error_in_body (robot : ConfiguredRobot) : M vec :=
  self <~ get ;;
  match transform_target_to_world self with
  | None => raise (TargetNotSet ("no target set for body " ++ body self))
  | Some target =>
      let transform_body_to_world := get_transform_body_to_world robot (body self) in
      let error_in_body := vneg (body_box_minus target transform_body_to_world) in
      _ <~ put (with_error_in_body self error_in_body) ;;
      ret error_in_body
  end.

Definition compute_task_dynamics (robot : ConfiguredRobot) : M (mat * vec) :=
  self <~ get ;;
  let jacobian_in_body := get_body_jacobian robot (body self) in
  error_in_body <~ compute_error_in_body robot ;;
  self <~ get ;;
  ret (jacobian_in_body, vscale (gain self) error_in_body).

(** Lines 238-248, after the task dynamics are known.  In
    [lm_damping * weighted_error @ weighted_error] the operators [*] and
    [@] have one precedence and associate to the left; in
    [-weighted_error.T @ weighted_jacobian] the negation binds first and
    [.T] leaves a 1-D array as it is. *)
Definition qp_objective (cost : vec) (lm_damping : Q) (nv : nat)
    (jacobian : mat) (error : vec) : mat * vec :=
  let weight := diag cost in
  let weighted_jacobian := matmul weight jacobian in
  let weighted_error := matvec weight error in
  let mu := dot (vscale lm_damping weighted_error) weighted_error in
  let eye_tg := eye nv in
  let H := madd (matmul (transpose weighted_jacobian) weighted_jacobian) (mscale mu eye_tg) in
  let c := vecmat (vneg weighted_error) weighted_jacobian in
  (H, c).

Definition compute_qp_objective (robot : ConfiguredRobot) : M (mat * vec) :=
  dyn <~ compute_task_dynamics robot ;;
  self <~ get ;;
  ret (qp_objective (cost self) (lm_damping self) (robot_nv robot) (fst dyn) (snd dyn)).

(** Calls a client can make on a task, and the task they leave behind
    (a raised exception is caught by the caller). *)
Inductive call : Type :=
| SetPositionCost (c : cost_input)
| SetOrientationCost (c : cost_input)
| SetTarget (T : SE3)
| ComputeErrorInBody (robot : ConfiguredRobot)
| ComputeTaskDynamics (robot : ConfiguredRobot)
| ComputeQpObjective (robot : ConfiguredRobot).

Definition is_set_target (c : call) : bool :=
  match c with SetTarget _ => true | _ => false end.

Definition perform (self : t) (c : call) : t :=
  match c with
  | SetPositionCost x => snd (set_position_cost x self)
  | SetOrientationCost x => snd (set_orientation_cost x self)
  | SetTarget T => snd (set_target T self)
  | ComputeErrorInBody robot => snd (compute_error_in_body robot self)
  | ComputeTaskDynamics robot => snd (compute_task_dynamics robot self)
  | ComputeQpObjective robot => snd (compute_qp_objective robot self)
  end.

Definition perform_all (self : t) (calls : list call) : t := fold_left perform calls self.

End WithProvider.

End BodyTask.

(** * pink/tasks/damping_task.py *)

Module DampingTask.

(** [Configuration] of pink/configuration.py (not in src): the model
    and the joint positions. *)
Record Configuration : Type := mk_configuration {
  model : Model;
  q : vec
}.

Section WithUtils.

(** [get_root_joint_dim] of pink/utils.py (not in src): the pair
    [(nq, nv)] of the root joint, the floating base if there is one. *)
Variable get_root_joint_dim : Model -> Z * Z.

(** [DampingTask.compute_error] *)
Definition compute_error (configuration : Configuration) : result vec :=
  let '(_, root_nv) := get_root_joint_dim (model configuration) in
  zeros (Z.of_nat (model_nv (model configuration)) - root_nv).

End WithUtils.

End DampingTask.

(** * pink/barriers/position_barrier.py *)

(** What [Configuration] (pink/configuration.py, not in src) supplies to
    a barrier: the world position of a frame, three coordinates, and
    its Jacobian, six rows over the tangent space. *)
Class FrameKinematics : Type := {
  FrameConfiguration : Type;
  frame_nv : FrameConfiguration -> nat;
  get_transform_frame_to_world_translation : FrameConfiguration -> string -> list R;
  get_frame_jacobian : FrameConfiguration -> string -> list (list R);
  translation_length : forall c f,
    length (get_transform_frame_to_world_translation c f) = 3%nat;
  frame_jacobian_rows : forall c f, length (get_frame_jacobian c f) = 6%nat;
  frame_jacobian_cols : forall c f,
    Forall (fun row => length row = frame_nv c) (get_frame_jacobian c f)
}.

Module PositionCBF.

Local Open Scope R_scope.

Definition rvec := list R.
Definition rmat := list (list R).

(** [np.linalg.norm(h)] *)
Definition norm (h : rvec) : R := sqrt (fold_right (fun x acc => x * x + acc) 0 h).

(** [a - b] on 1-D arrays with NumPy broadcasting; [None] as an operand
    is a [TypeError]. *)
Definition np_sub (a b : option rvec) : result rvec :=
  match a, b with
  | Some u, Some v =>
      if (length u =? length v)%nat then Ok (zip_with Rminus u v)
      else match u, v with
           | [x], _ => Ok (map (fun y => x - y) v)
           | _, [y] => Ok (map (fun x => x - y) u)
           | _, _ => Raise ValueError
           end
  | _, _ => Raise TypeError
  end.

(** [np.concatenate] of 1-D arrays and [np.hstack] of 2-D arrays (which
    joins them along the second axis); both refuse an empty list, and
    [hstack] refuses arrays that differ in their number of rows. *)
Definition np_concatenate (arrays : list rvec) : result rvec :=
  match arrays with
  | [] => Raise ValueError
  | _ :: _ => Ok (concat arrays)
  end.

Definition np_hstack (arrays : list rmat) : result rmat :=
  match arrays with
  | [] => Raise ValueError
  | A :: _ =>
      if forallb (fun B => (length B =? length A)%nat) arrays
      then Ok (map (fun i => concat (map (fun B => nth i B []) arrays)) (seq 0 (length A)))
      else Raise ValueError
  end.

(** In [compute_barrier] and [compute_jacobian] the names [min] and
    [max] are neither parameters nor attributes: they are Python's
    builtin functions, and a function is not [None]. *)
Definition builtin_is_not_None (name : string) : bool := true.

Record t : Type := mk {
  (* [frame] is annotated on the class and assigned nowhere: reading it
     from an object that was only constructed is an [AttributeError]. *)
  frame : option string;
  p_min : option rvec;
  p_max : option rvec;
  mask : option (list bool);
  dim : nat;
  (* Modelled from the spec: the base class [CBF] (pink/barriers/barrier.py,
     not in src) holds the gain and the class-K comparison function that
     its constructor receives. *)
  gain : R;
  class_k_fn : rvec -> R
}.

(** [PositionCBF.__init__] *)
Definition __init__ (frame_arg : string) (mask_arg : option (list bool))
    (min max : option rvec) (gain_arg : R) : t :=
  let dim0 := 0%nat in
  let dim1 := match min with Some _ => (dim0 + 3)%nat | None => dim0 end in
  let dim2 := match max with Some _ => (dim1 + 3)%nat | None => dim1 end in
  {| frame := None;
     p_min := min;
     p_max := max;
     mask := mask_arg;
     dim := dim2;
     gain := gain_arg;
     class_k_fn := fun h => 1 / (1 + norm h) |}.

(** [cbf.frame = name], done by a caller. *)
Definition with_frame (self : t) (name : string) : t :=
  mk (Some name) (p_min self) (p_max self) (mask self) (dim self) (gain self) (class_k_fn self).

Definition get_frame (self : t) : result string :=
  match frame self with
  | Some name => Ok name
  | None => Raise (AttributeError "frame")
  end.

Section WithConfiguration.

Context {F : FrameKinematics}.

(** [PositionCBF.compute_barrier] *)
Definition compute_barrier (self : t) (configuration : FrameConfiguration) : result rvec :=
  (frame_name <- get_frame self ;;
   let pos_world := get_transform_frame_to_world_translation configuration frame_name in
   let tasks := [] in
   tasks <- (if builtin_is_not_None "min"
             then (below <- np_sub (Some pos_world) (p_min self) ;; Ok (tasks ++ [below]))
             else Ok tasks) ;;
   tasks <- (if builtin_is_not_None "max"
             then (above <- np_sub (p_max self) (Some pos_world) ;; Ok (tasks ++ [above]))
             else Ok tasks) ;;
   np_concatenate tasks)%py.

(** [PositionCBF.compute_jacobian] *)
Definition compute_jacobian (self : t) (configuration : FrameConfiguration) : result rmat :=
  (frame_name <- get_frame self ;;
   let pos_jac := firstn 3 (get_frame_jacobian configuration frame_name) in
   let jacobian := [] in
   let jacobian := if builtin_is_not_None "min" then jacobian ++ [pos_jac] else jacobian in
   let jacobian := if builtin_is_not_None "max"
                   then jacobian ++ [map (map Ropp) pos_jac] else jacobian in
   np_hstack jacobian)%py.

End WithConfiguration.

End PositionCBF.

(** * Facts about the NumPy layer *)

Module NpFacts.

Local Open Scope Q_scope.

(** [sum_upto n f] is the sum of [f 0 .. f (n-1)]. *)
Definition sum_upto (n : nat) (f : nat -> Q) : Q := qsum (map f (seq 0 n)).

(** An [n]-by-[m] array given by its entries. *)
Definition tabulate (n m : nat) (h : nat -> nat -> Q) : mat :=
  map (fun i => map (fun j => h i j) (seq 0 m)) (seq 0 n).

Definition delta (i j : nat) : Q := if Nat.eqb i j then 1 else 0.

Lemma nth_nil_Q (i : nat) : nth i (@nil Q) 0 = 0.
Proof. destruct i; reflexivity. Qed.

Lemma nth_map_seq {A : Type} (f : nat -> A) (n s k : nat) (d : A) :
  (k < n)%nat -> nth k (map f (seq s n)) d = f (s + k)%nat.
Proof.
  intros Hk.
  rewrite (nth_indep _ d (f 0%nat)) by (rewrite length_map, length_seq; exact Hk).
  rewrite map_nth. f_equal. apply seq_nth. exact Hk.
Qed.

Lemma Forall2_map_in {A B : Type} (R : B -> B -> Prop) (f g : A -> B) (l : list A) :
  (forall x, In x l -> R (f x) (g x)) -> Forall2 R (map f l) (map g l).
Proof.
  induction l as [|a l IH]; intros H; simpl; constructor.
  - apply H. left. reflexivity.
  - apply IH. intros x Hx. apply H. right. exact Hx.
Qed.

Lemma zip_with_map {A B C D : Type} (g : B -> C -> D) (f1 : A -> B) (f2 : A -> C) (l : list A) :
  zip_with g (map f1 l) (map f2 l) = map (fun x => g (f1 x) (f2 x)) l.
Proof. induction l as [|a l IH]; simpl; [reflexivity | now rewrite IH]. Qed.

Lemma length_zip_with {A B C : Type} (g : A -> B -> C) (u : list A) (v : list B) :
  length (zip_with g u v) = Nat.min (length u) (length v).
Proof.
  revert v. induction u as [|a u IH]; intros [|b v]; simpl; try reflexivity.
  now rewrite IH.
Qed.

Lemma nth_zip_with {A B C : Type} (g : A -> B -> C) (u : list A) (v : list B)
    (k : nat) (da : A) (db : B) (dc : C) :
  (k < length u)%nat -> (k < length v)%nat ->
  nth k (zip_with g u v) dc = g (nth k u da) (nth k v db).
Proof.
  revert v k. induction u as [|a u IH]; intros [|b v] [|k] Hu Hv; simpl in *; try lia.
  - reflexivity.
  - apply IH; lia.
Qed.

#[export] Instance veq_Equivalence : Equivalence veq.
Proof.
  unfold veq. split.
  - intros u. induction u; constructor; [reflexivity | assumption].
  - intros u v H. induction H; constructor; [symmetry; assumption | assumption].
  - intros u v w H. revert w. induction H; intros w Hw; inversion Hw; subst; constructor.
    + etransitivity; eassumption.
    + auto.
Qed.

#[export] Instance dot_Proper : Proper (veq ==> veq ==> Qeq) dot.
Proof.
  intros u u' Hu. induction Hu as [|a a' u u' Ha Hu IH]; intros v v' Hv.
  - reflexivity.
  - destruct Hv as [|b b' v v' Hb Hv]; simpl; [reflexivity|].
    rewrite Ha, Hb, (IH _ _ Hv). reflexivity.
Qed.

Lemma dot_comm (u v : vec) : dot u v == dot v u.
Proof.
  revert v. induction u as [|a u IH]; intros [|b v]; simpl; try reflexivity.
  rewrite IH. ring.
Qed.

Lemma qsum_map_ext {A : Type} (f g : A -> Q) (l : list A) :
  (forall k, In k l -> f k == g k) -> qsum (map f l) == qsum (map g l).
Proof.
  induction l as [|a l IH]; intros H; simpl; [reflexivity|].
  rewrite (H a) by (left; reflexivity).
  rewrite IH by (intros k Hk; apply H; right; exact Hk). reflexivity.
Qed.

Lemma qsum_map_plus {A : Type} (f g : A -> Q) (l : list A) :
  qsum (map (fun k => f k + g k) l) == qsum (map f l) + qsum (map g l).
Proof. induction l as [|a l IH]; simpl; [ring | rewrite IH; ring]. Qed.

Lemma qsum_map_scale {A : Type} (c : Q) (f : A -> Q) (l : list A) :
  qsum (map (fun k => c * f k) l) == c * qsum (map f l).
Proof. induction l as [|a l IH]; simpl; [ring | rewrite IH; ring]. Qed.

Lemma qsum_map_scale_r {A : Type} (c : Q) (f : A -> Q) (l : list A) :
  qsum (map (fun k => f k * c) l) == qsum (map f l) * c.
Proof. induction l as [|a l IH]; simpl; [ring | rewrite IH; ring]. Qed.

Lemma qsum_map_zero {A : Type} (l : list A) : qsum (map (fun _ => 0) l) == 0.
Proof. induction l as [|a l IH]; simpl; [reflexivity | rewrite IH; ring]. Qed.

Lemma qsum_map_nonneg {A : Type} (f : A -> Q) (l : list A) :
  (forall k, In k l -> 0 <= f k) -> 0 <= qsum (map f l).
Proof.
  induction l as [|a l IH]; intros H; simpl; [apply Qle_refl|].
  assert (0 <= f a) by (apply H; left; reflexivity).
  assert (0 <= qsum (map f l)) by (apply IH; intros k Hk; apply H; right; exact Hk).
  lra.
Qed.

Lemma sum_upto_ext (n : nat) (f g : nat -> Q) :
  (forall k, (k < n)%nat -> f k == g k) -> sum_upto n f == sum_upto n g.
Proof.
  intros H. apply qsum_map_ext. intros k Hk. apply in_seq in Hk. apply H. lia.
Qed.

(** The dot product as an indexed sum. *)
Lemma dot_as_sum (u v : vec) :
  length u = length v ->
  dot u v == sum_upto (length u) (fun k => nth k u 0 * nth k v 0).
Proof.
  unfold sum_upto. revert v.
  induction u as [|a u IH]; intros [|b v] Hlen; simpl in *; try discriminate; [reflexivity|].
  rewrite <- seq_shift, map_map. rewrite IH by lia. reflexivity.
Qed.

Lemma dot_tab_l (n : nat) (f : nat -> Q) (v : vec) :
  length v = n -> dot (map f (seq 0 n)) v == sum_upto n (fun k => f k * nth k v 0).
Proof.
  intros Hv. rewrite dot_as_sum by (rewrite length_map, length_seq; lia).
  rewrite length_map, length_seq. apply sum_upto_ext. intros k Hk.
  rewrite nth_map_seq by exact Hk. reflexivity.
Qed.

Lemma dot_tab_r (n : nat) (f : nat -> Q) (v : vec) :
  length v = n -> dot v (map f (seq 0 n)) == sum_upto n (fun k => nth k v 0 * f k).
Proof.
  intros Hv. rewrite dot_comm, dot_tab_l by exact Hv.
  apply sum_upto_ext. intros k _. ring.
Qed.

Lemma dot_tab_tab (n : nat) (f g : nat -> Q) :
  dot (map f (seq 0 n)) (map g (seq 0 n)) == sum_upto n (fun k => f k * g k).
Proof.
  rewrite dot_tab_l by (rewrite length_map, length_seq; reflexivity).
  apply sum_upto_ext. intros k Hk. rewrite nth_map_seq by exact Hk. reflexivity.
Qed.

(** A sum against a Kronecker delta picks one term. *)
Lemma sum_upto_delta (n i : nat) (f : nat -> Q) :
  (i < n)%nat -> sum_upto n (fun k => delta i k * f k) == f i.
Proof.
  unfold sum_upto. intros Hi.
  assert (G : forall s m, (s <= i < s + m)%nat ->
            qsum (map (fun k => delta i k * f k) (seq s m)) == f i).
  { intros s m. revert s. induction m as [|m IH]; intros s Hs; [lia|]. simpl.
    unfold delta at 1. destruct (Nat.eqb_spec i s) as [->|Hne].
    - assert (Z0 : qsum (map (fun k => delta s k * f k) (seq (S s) m)) == 0).
      { rewrite <- (qsum_map_zero (seq (S s) m)). apply qsum_map_ext.
        intros k Hk. apply in_seq in Hk. unfold delta.
        destruct (Nat.eqb_spec s k); [lia | ring]. }
      rewrite Z0. ring.
    - rewrite IH by lia. ring. }
  apply G. lia.
Qed.

End NpFacts.

(** * Facts about [BodyTask.compute_qp_objective] *)

Module QpFacts.

Import NpFacts.
Local Open Scope Q_scope.

(** The arrays named in the source, as functions of the inputs. *)
Definition weighted_jacobian (cost : vec) (jacobian : mat) : mat := matmul (diag cost) jacobian.
Definition weighted_error (cost : vec) (error : vec) : vec := matvec (diag cost) error.
Definition lm_mu (cost : vec) (lm_damping : Q) (error : vec) : Q :=
  dot (vscale lm_damping (weighted_error cost error)) (weighted_error cost error).

Lemma ncols_tabulate (m n : nat) (h : nat -> nat -> Q) :
  (0 < m)%nat -> ncols (tabulate m n h) = n.
Proof.
  intros Hm. unfold ncols, tabulate. destruct m as [|m]; [lia|].
  simpl. now rewrite length_map, length_seq.
Qed.

Lemma ncols_rows (n : nat) (M : mat) :
  (0 < length M)%nat -> Forall (fun r => length r = n) M -> ncols M = n.
Proof.
  intros Hlen Hrows. unfold ncols. destruct M as [|r M]; simpl in *; [lia|].
  now inversion Hrows.
Qed.

Lemma nth_col (j k : nat) (M : mat) :
  (k < length M)%nat -> nth k (col j M) 0 = nth j (nth k M []) 0.
Proof.
  intros Hk. unfold col.
  rewrite (nth_indep _ 0 (nth j [] 0)) by (now rewrite length_map).
  apply (map_nth (fun r => nth j r 0)).
Qed.

(** A row of [np.diag(v)] times a vector picks and scales one entry. *)
Lemma dot_diag_row (v w : vec) (k : nat) :
  (k < length v)%nat -> length w = length v ->
  dot (map (fun j => if Nat.eqb k j then nth k v 0 else 0) (seq 0 (length v))) w
  == nth k v 0 * nth k w 0.
Proof.
  intros Hk Hw. rewrite dot_tab_l by exact Hw.
  rewrite <- (sum_upto_delta (fun j => nth k v 0 * nth j w 0) Hk).
  apply sum_upto_ext. intros j _. unfold delta. destruct (Nat.eqb k j); ring.
Qed.

(** [np.diag(cost) @ jacobian] scales row [k] of the Jacobian by [cost[k]]. *)
Lemma weighted_jacobian_tabulated (cost : vec) (J : mat) (n : nat) :
  ncols J = n ->
  weighted_jacobian cost J
  = tabulate (length cost) n
      (fun k j => dot (map (fun j' => if Nat.eqb k j' then nth k cost 0 else 0)
                           (seq 0 (length cost))) (col j J)).
Proof.
  intros Hn. unfold weighted_jacobian, matmul, diag, tabulate, vecmat.
  rewrite map_map, Hn. reflexivity.
Qed.

Lemma col_weighted_jacobian (cost : vec) (J : mat) (n j : nat) :
  ncols J = n -> length J = length cost -> (j < n)%nat ->
  veq (col j (weighted_jacobian cost J))
      (map (fun k => nth k cost 0 * nth j (nth k J []) 0) (seq 0 (length cost))).
Proof.
  intros Hn HJ Hj. rewrite (weighted_jacobian_tabulated cost J Hn).
  unfold col at 1, tabulate. rewrite map_map.
  apply Forall2_map_in. intros k Hk. apply in_seq in Hk.
  rewrite nth_map_seq by exact Hj. simpl.
  rewrite dot_diag_row; [|lia|unfold col; rewrite length_map; exact HJ].
  rewrite nth_col by lia. reflexivity.
Qed.

Lemma weighted_error_entries (cost error : vec) :
  length error = length cost ->
  veq (weighted_error cost error)
      (map (fun k => nth k cost 0 * nth k error 0) (seq 0 (length cost))).
Proof.
  intros He. unfold weighted_error, matvec, diag. rewrite map_map.
  apply Forall2_map_in. intros k Hk. apply in_seq in Hk.
  apply dot_diag_row; [lia | exact He].
Qed.

Lemma dot_vscale_l (s : Q) (u v : vec) : dot (vscale s u) v == s * dot u v.
Proof.
  revert v. induction u as [|a u IH]; intros [|b v]; simpl; try ring.
  rewrite IH. ring.
Qed.

Lemma dot_vneg_l (u v : vec) : dot (vneg u) v == - dot u v.
Proof.
  revert v. induction u as [|a u IH]; intros [|b v]; simpl; try ring.
  rewrite IH. ring.
Qed.

Lemma dot_self_nonneg (u : vec) : 0 <= dot u u.
Proof.
  induction u as [|a u IH]; simpl; [apply Qle_refl|].
  assert (0 <= a * a) by nra. lra.
Qed.

(** The Hessian of the source, entry by entry. *)
Lemma qp_objective_tabulated (cost : vec) (lm : Q) (n : nat) (J : mat) (error : vec) :
  ncols (weighted_jacobian cost J) = n ->
  fst (BodyTask.qp_objective cost lm n J error)
  = tabulate n n (fun i j =>
      dot (col i (weighted_jacobian cost J)) (col j (weighted_jacobian cost J))
      + lm_mu cost lm error * delta i j).
Proof.
  intros Hn. unfold BodyTask.qp_objective. simpl.
  fold (weighted_jacobian cost J). fold (weighted_error cost error).
  fold (lm_mu cost lm error).
  unfold madd, matmul, transpose, mscale, eye, tabulate, vecmat, vscale, unit_row.
  rewrite Hn, !map_map, zip_with_map.
  apply map_ext. intros i. rewrite map_map, zip_with_map. reflexivity.
Qed.

Lemma qp_objective_linear (cost : vec) (lm : Q) (n : nat) (J : mat) (error : vec) :
  ncols (weighted_jacobian cost J) = n ->
  snd (BodyTask.qp_objective cost lm n J error)
  = map (fun j => dot (vneg (weighted_error cost error)) (col j (weighted_jacobian cost J)))
        (seq 0 n).
Proof.
  intros Hn. unfold BodyTask.qp_objective. simpl.
  fold (weighted_jacobian cost J). fold (weighted_error cost error).
  unfold vecmat. rewrite Hn. reflexivity.
Qed.

Lemma ncols_weighted_jacobian (cost : vec) (J : mat) (n : nat) :
  (0 < length cost)%nat -> ncols J = n -> ncols (weighted_jacobian cost J) = n.
Proof.
  intros Hc Hn. rewrite (weighted_jacobian_tabulated cost J Hn).
  apply ncols_tabulate. exact Hc.
Qed.

End QpFacts.

(** * The objective as the specification words it *)

Module QpSpec.

Import NpFacts.
Local Open Scope Q_scope.

Section Formula.

Variables (cost : vec) (gain lm_damping : Q) (J : mat) (e : vec).

(** [Jw = diag(cost) J] and [ew = diag(cost) (gain e)], entry by entry. *)
Definition Jw (k j : nat) : Q := nth k cost 0 * nth j (nth k J []) 0.
Definition ew (k : nat) : Q := nth k cost 0 * (gain * nth k e 0).

(** [mu = lm_damping (ew^T ew)] *)
Definition mu : Q := lm_damping * sum_upto 6 (fun k => ew k * ew k).

(** [H = Jw^T Jw + mu I] and [c = - ew^T Jw]. *)
Definition H (i j : nat) : Q := sum_upto 6 (fun k => Jw k i * Jw k j) + mu * delta i j.
Definition c (j : nat) : Q := - sum_upto 6 (fun k => ew k * Jw k j).

End Formula.

(** Symmetry and positive semi-definiteness of an [n]-by-[n] array. *)
Definition entry (M : mat) (i j : nat) : Q := nth j (nth i M []) 0.

Definition square (n : nat) (M : mat) : Prop :=
  length M = n /\ Forall (fun r => length r = n) M.

Definition symmetric (n : nat) (M : mat) : Prop :=
  square n M /\ forall i j, (i < n)%nat -> (j < n)%nat -> entry M i j == entry M j i.

Definition quad_form (M : mat) (x : vec) : Q := dot x (matvec M x).

Definition positive_semidefinite (n : nat) (M : mat) : Prop :=
  forall x, length x = n -> 0 <= quad_form M x.

End QpSpec.

Module PsdFacts.

Import NpFacts QpFacts.
Local Open Scope Q_scope.

Lemma square_tabulate (n : nat) (h : nat -> nat -> Q) : QpSpec.square n (tabulate n n h).
Proof.
  unfold QpSpec.square, tabulate. split.
  - now rewrite length_map, length_seq.
  - apply Forall_forall. intros r Hr. apply in_map_iff in Hr.
    destruct Hr as [i [<- _]]. now rewrite length_map, length_seq.
Qed.

Lemma entry_tabulate (n m : nat) (h : nat -> nat -> Q) (i j : nat) :
  (i < n)%nat -> (j < m)%nat -> QpSpec.entry (tabulate n m h) i j = h i j.
Proof.
  intros Hi Hj. unfold QpSpec.entry, tabulate.
  rewrite (nth_map_seq (fun i => map (fun j => h i j) (seq 0 m)) 0 [] Hi).
  now rewrite nth_map_seq.
Qed.

(** The quadratic form of a tabulated array as a double sum. *)
Lemma quad_form_tabulate (n : nat) (h : nat -> nat -> Q) (x : vec) :
  length x = n ->
  QpSpec.quad_form (tabulate n n h) x
  == sum_upto n (fun i => nth i x 0 * sum_upto n (fun j => h i j * nth j x 0)).
Proof.
  intros Hx. unfold QpSpec.quad_form, matvec, tabulate. rewrite map_map.
  rewrite dot_tab_r by exact Hx.
  apply sum_upto_ext. intros i _. rewrite dot_tab_l by exact Hx. reflexivity.
Qed.

(** Sum of the squared products of the rows of [M] with [x]. *)
Definition row_squares (n : nat) (M : mat) (x : vec) : Q :=
  qsum (map (fun r => sum_upto n (fun j => nth j r 0 * nth j x 0)
                      * sum_upto n (fun j => nth j r 0 * nth j x 0)) M).

Lemma row_squares_nonneg (n : nat) (M : mat) (x : vec) : 0 <= row_squares n M x.
Proof. apply qsum_map_nonneg. intros r _. nra. Qed.

(** [x^T (M^T M) x = |M x|^2], for the Gram matrix given by its columns. *)
Lemma gram_quad_form (n : nat) (M : mat) (x : vec) :
  sum_upto n (fun i => nth i x 0 * sum_upto n (fun j => dot (col i M) (col j M) * nth j x 0))
  == row_squares n M x.
Proof.
  unfold row_squares. induction M as [|r M IH]; simpl.
  - unfold sum_upto. rewrite <- (qsum_map_zero (seq 0 n)). apply qsum_map_ext.
    intros i _. rewrite <- (qsum_map_zero (seq 0 n)) at 2.
    rewrite <- qsum_map_scale. apply qsum_map_ext. intros j _. ring.
  - rewrite <- IH. clear IH.
    set (S := sum_upto n (fun j => nth j r 0 * nth j x 0)).
    set (T := fun i => sum_upto n (fun j => dot (col i M) (col j M) * nth j x 0)).
    transitivity (sum_upto n (fun i => (nth i r 0 * nth i x 0) * S + nth i x 0 * T i)).
    + apply sum_upto_ext. intros i _.
      assert (E : sum_upto n (fun j =>
                    (nth i r 0 * nth j r 0 + dot (col i M) (col j M)) * nth j x 0)
                  == nth i r 0 * S + T i).
      { unfold S, T, sum_upto. rewrite <- qsum_map_scale, <- qsum_map_plus.
        apply qsum_map_ext. intros j _. ring. }
      rewrite E. ring.
    + unfold sum_upto at 1. rewrite qsum_map_plus, qsum_map_scale_r. reflexivity.
Qed.

Lemma identity_quad_form (n : nat) (m : Q) (x : vec) :
  sum_upto n (fun i => nth i x 0 * sum_upto n (fun j => (m * delta i j) * nth j x 0))
  == m * sum_upto n (fun i => nth i x 0 * nth i x 0).
Proof.
  unfold sum_upto at 3. rewrite <- qsum_map_scale. apply sum_upto_ext. intros i Hi.
  transitivity (nth i x 0 * (m * sum_upto n (fun j => delta i j * nth j x 0))).
  - apply Qmult_comp; [reflexivity|]. unfold sum_upto. rewrite <- qsum_map_scale.
    apply qsum_map_ext. intros j _. ring.
  - rewrite (sum_upto_delta (fun j => nth j x 0) Hi). ring.
Qed.

Lemma sum_squares_nonneg (n : nat) (x : vec) :
  0 <= sum_upto n (fun i => nth i x 0 * nth i x 0).
Proof. apply qsum_map_nonneg. intros i _. nra. Qed.

Lemma delta_sym (i j : nat) : delta i j = delta j i.
Proof. unfold delta. now rewrite Nat.eqb_sym. Qed.

Lemma lm_mu_eq (cost : vec) (lm : Q) (error : vec) :
  lm_mu cost lm error == lm * dot (weighted_error cost error) (weighted_error cost error).
Proof. unfold lm_mu. apply dot_vscale_l. Qed.

(** The Hessian of [qp_objective] is symmetric whatever the inputs. *)
Lemma qp_objective_symmetric (cost : vec) (lm : Q) (n : nat) (J : mat) (error : vec) :
  ncols (weighted_jacobian cost J) = n ->
  QpSpec.symmetric n (fst (BodyTask.qp_objective cost lm n J error)).
Proof.
  intros Hn. rewrite (qp_objective_tabulated cost lm J error Hn). split.
  - apply square_tabulate.
  - intros i j Hi Hj. rewrite !entry_tabulate by assumption.
    rewrite (dot_comm (col i _)), (delta_sym i j). reflexivity.
Qed.

(** It is positive semi-definite as soon as the damping scale is not negative. *)
Lemma qp_objective_psd (cost : vec) (lm : Q) (n : nat) (J : mat) (error : vec) :
  ncols (weighted_jacobian cost J) = n -> 0 <= lm ->
  QpSpec.positive_semidefinite n (fst (BodyTask.qp_objective cost lm n J error)).
Proof.
  intros Hn Hlm x Hx. rewrite (qp_objective_tabulated cost lm J error Hn).
  rewrite quad_form_tabulate by exact Hx.
  assert (E : sum_upto n (fun i => nth i x 0 * sum_upto n (fun j =>
                (dot (col i (weighted_jacobian cost J)) (col j (weighted_jacobian cost J))
                 + lm_mu cost lm error * delta i j) * nth j x 0))
              == row_squares n (weighted_jacobian cost J) x
                 + lm_mu cost lm error * sum_upto n (fun i => nth i x 0 * nth i x 0)).
  { rewrite <- gram_quad_form, <- identity_quad_form. unfold sum_upto.
    rewrite <- qsum_map_plus. apply qsum_map_ext. intros i _.
    rewrite <- Qmult_plus_distr_r. apply Qmult_comp; [reflexivity|].
    rewrite <- qsum_map_plus. apply qsum_map_ext. intros j _. ring. }
  rewrite E.
  pose proof (row_squares_nonneg n (weighted_jacobian cost J) x) as H1.
  pose proof (sum_squares_nonneg n x) as H2.
  pose proof (dot_self_nonneg (weighted_error cost error)) as H3.
  pose proof (lm_mu_eq cost lm error) as H4.
  assert (0 <= lm_mu cost lm error) by (rewrite H4; apply Qmult_le_0_compat; assumption).
  assert (0 <= lm_mu cost lm error * sum_upto n (fun i => nth i x 0 * nth i x 0))
    by (apply Qmult_le_0_compat; assumption).
  lra.
Qed.

End PsdFacts.

(** * A concrete provider: a slider on a rail

    One prismatic joint moves the body ["slider"] by [q] along the world
    x axis, without rotation.  Poses are translations; on translations
    the logarithm of the relative transform is the difference of the
    positions with a zero angular part, and the body Jacobian is the unit
    column along x. *)

Module Slider.

Local Open Scope Q_scope.

Definition pose : Type := (Q * Q * Q)%type.

Definition box_minus (a b : pose) : vec :=
  let '(ax, ay, az) := a in
  let '(bx, by_, bz) := b in
  [ax - bx; ay - by_; az - bz; 0; 0; 0].

Definition jacobian : mat := [[1]; [0]; [0]; [0]; [0]; [0]].

Lemma jacobian_rows (q : Q) (b : string) : length jacobian = 6%nat.
Proof. reflexivity. Qed.

Lemma jacobian_cols (q : Q) (b : string) : Forall (fun row : list Q => length row = 1%nat) jacobian.
Proof. repeat constructor. Qed.

Lemma box_minus_length (a b : pose) : length (box_minus a b) = 6%nat.
Proof. destruct a as [[ax ay] az], b as [[bx by_] bz]. reflexivity. Qed.

#[export] Instance kinematics : Kinematics := {|
  SE3 := pose;
  ConfiguredRobot := Q;
  robot_nv := fun _ => 1%nat;
  get_transform_body_to_world := fun q _ => (q, 0, 0);
  get_body_jacobian := fun _ _ => jacobian;
  body_box_minus := box_minus;
  get_body_jacobian_rows := jacobian_rows;
  get_body_jacobian_cols := jacobian_cols;
  body_box_minus_length := box_minus_length
|}.

(** The slider at joint position [q], and a target [x] along the rail. *)
Definition at_position (q : Q) : @ConfiguredRobot kinematics := q.
Definition target_at (x : Q) : @SE3 kinematics := (x, 0, 0).

(** [BodyTask("slider", 1.0, 1.0, lm_damping)] with unit gain, then
    [set_target] at one metre along the rail. *)
Definition new_task (lm_damping : Q) : BodyTask.t :=
  BodyTask.mk "slider" [1; 1; 1; 1; 1; 1] [0; 0; 0; 0; 0; 0] lm_damping None 1.

Definition task (lm_damping : Q) : BodyTask.t :=
  BodyTask.mk "slider" [1; 1; 1; 1; 1; 1] [0; 0; 0; 0; 0; 0] lm_damping (Some (target_at 1)) 1.

Example new_task_is_constructed (lm_damping : Q) :
  BodyTask.__init__ 1 "slider" (BodyTask.CostFloat 1) (BodyTask.CostFloat 1) lm_damping
  = Ok (new_task lm_damping).
Proof. reflexivity. Qed.

Example task_is_targeted (lm_damping : Q) :
  snd (BodyTask.set_target (target_at 1) (new_task lm_damping)) = task lm_damping.
Proof. reflexivity. Qed.

End Slider.

(** * [BodyTask]: what the methods return and what they write *)

Module BodyTaskFacts.

Import NpFacts QpFacts PsdFacts BodyTask.
Local Open Scope Q_scope.

Section WithProvider.

Context {K : Kinematics}.

(** The error a task with target [T] has at [robot]. *)
Definition error_of (self : t) (robot : ConfiguredRobot) (T : SE3) : vec :=
  vneg (body_box_minus T (get_transform_body_to_world robot (body self))).

Definition unset_target_error (self : t) : PyError :=
  TargetNotSet ("no target set for body " ++ body self).

Lemma compute_error_in_body_unset (self : t) (robot : ConfiguredRobot) :
  transform_target_to_world self = None ->
  compute_error_in_body robot self = (Raise (unset_target_error self), self).
Proof.
  intros Hnone. unfold compute_error_in_body, mbind, get, raise. now rewrite Hnone.
Qed.

Lemma compute_error_in_body_set (self : t) (robot : ConfiguredRobot) (T : SE3) :
  transform_target_to_world self = Some T ->
  compute_error_in_body robot self
  = (Ok (error_of self robot T), with_error_in_body self (error_of self robot T)).
Proof.
  intros Hsome. unfold compute_error_in_body, mbind, get, put, ret. now rewrite Hsome.
Qed.

Lemma compute_task_dynamics_unset (self : t) (robot : ConfiguredRobot) :
  transform_target_to_world self = None ->
  compute_task_dynamics robot self = (Raise (unset_target_error self), self).
Proof.
  intros Hnone. unfold compute_task_dynamics, mbind at 1 2, get at 1.
  now rewrite compute_error_in_body_unset by exact Hnone.
Qed.

Lemma compute_task_dynamics_set (self : t) (robot : ConfiguredRobot) (T : SE3) :
  transform_target_to_world self = Some T ->
  compute_task_dynamics robot self
  = (Ok (get_body_jacobian robot (body self), vscale (gain self) (error_of self robot T)),
     with_error_in_body self (error_of self robot T)).
Proof.
  intros Hsome. unfold compute_task_dynamics, mbind at 1 2, get at 1.
  rewrite (compute_error_in_body_set self robot Hsome). reflexivity.
Qed.

Lemma compute_qp_objective_unset (self : t) (robot : ConfiguredRobot) :
  transform_target_to_world self = None ->
  compute_qp_objective robot self = (Raise (unset_target_error self), self).
Proof.
  intros Hnone. unfold compute_qp_objective, mbind at 1.
  now rewrite compute_task_dynamics_unset by exact Hnone.
Qed.

Lemma compute_qp_objective_set (self : t) (robot : ConfiguredRobot) (T : SE3) :
  transform_target_to_world self = Some T ->
  compute_qp_objective robot self
  = (Ok (qp_objective (cost self) (lm_damping self) (robot_nv robot)
           (get_body_jacobian robot (body self))
           (vscale (gain self) (error_of self robot T))),
     with_error_in_body self (error_of self robot T)).
Proof.
  intros Hsome. unfold compute_qp_objective, mbind at 1.
  rewrite (compute_task_dynamics_set self robot Hsome). reflexivity.
Qed.

Lemma nth_vscale (s : Q) (v : vec) (k : nat) : nth k (vscale s v) 0 == s * nth k v 0.
Proof.
  revert k. induction v as [|a v IH]; intros [|k]; simpl; try ring. apply IH.
Qed.

Lemma length_error_of (self : t) (robot : ConfiguredRobot) (T : SE3) :
  length (error_of self robot T) = 6%nat.
Proof. unfold error_of, vneg. rewrite length_map. apply body_box_minus_length. Qed.

Lemma ncols_body_jacobian (robot : ConfiguredRobot) (b : string) :
  ncols (get_body_jacobian robot b) = robot_nv robot.
Proof.
  apply ncols_rows.
  - rewrite get_body_jacobian_rows. lia.
  - apply get_body_jacobian_cols.
Qed.

End WithProvider.

End BodyTaskFacts.

(** * [BodyTask.compute_qp_objective]: the objective it returns *)

Module QpObjective.

Import NpFacts QpFacts PsdFacts BodyTask BodyTaskFacts.
Local Open Scope Q_scope.

Section WithProvider.

Context {K : Kinematics}.

Lemma weighted_error_dot (cost : vec) (gain : Q) (e : vec) :
  length cost = 6%nat -> length e = 6%nat ->
  dot (weighted_error cost (vscale gain e)) (weighted_error cost (vscale gain e))
  == sum_upto 6 (fun k => QpSpec.ew cost gain e k * QpSpec.ew cost gain e k).
Proof.
  intros Hc He.
  assert (Hlen : length (vscale gain e) = length cost)
    by (unfold vscale; rewrite length_map; lia).
  rewrite (weighted_error_entries cost (vscale gain e) Hlen), Hc.
  rewrite dot_tab_tab. apply sum_upto_ext. intros k _.
  unfold QpSpec.ew. rewrite nth_vscale. reflexivity.
Qed.

(** The objective of lines 238-248 on six costs, a six-row Jacobian and
    a six-entry error scaled by the gain, entry by entry. *)
Lemma qp_objective_entries (cost : vec) (gain lm : Q) (n : nat) (J : mat) (e : vec) :
  length cost = 6%nat -> length J = 6%nat -> ncols J = n -> length e = 6%nat ->
  meq (fst (qp_objective cost lm n J (vscale gain e)))
      (tabulate n n (QpSpec.H cost gain lm J e))
  /\ veq (snd (qp_objective cost lm n J (vscale gain e)))
         (map (QpSpec.c cost gain J e) (seq 0 n)).
Proof.
  intros Hcost HJ6 HJ He.
  assert (HJrows : length J = length cost) by lia.
  assert (Hw : ncols (weighted_jacobian cost J) = n)
    by (apply ncols_weighted_jacobian; [lia | exact HJ]).
  assert (Hlen : length (vscale gain e) = length cost)
    by (unfold vscale; rewrite length_map; lia).
  split.
  - rewrite (@qp_objective_tabulated cost lm n J _ Hw).
    unfold tabulate. apply Forall2_map_in. intros i Hi. apply in_seq in Hi.
    apply Forall2_map_in. intros j Hj. apply in_seq in Hj.
    rewrite (col_weighted_jacobian cost J HJ HJrows (j := i)) by lia.
    rewrite (col_weighted_jacobian cost J HJ HJrows (j := j)) by lia.
    rewrite dot_tab_tab, Hcost, lm_mu_eq, (@weighted_error_dot cost gain e Hcost He).
    unfold QpSpec.H, QpSpec.mu, QpSpec.Jw. reflexivity.
  - rewrite (@qp_objective_linear cost lm n J _ Hw).
    apply Forall2_map_in. intros j Hj. apply in_seq in Hj.
    rewrite dot_vneg_l.
    rewrite (col_weighted_jacobian cost J HJ HJrows (j := j)) by lia.
    rewrite (weighted_error_entries cost (vscale gain e) Hlen).
    rewrite dot_tab_tab, Hcost. unfold QpSpec.c.
    apply Qopp_comp. apply sum_upto_ext. intros k _.
    unfold QpSpec.ew, QpSpec.Jw. rewrite nth_vscale. reflexivity.
Qed.

(** C1.  For a task with its six costs and a target, at any robot
    configuration, with [J] the body Jacobian and [e] the error that
    [compute_error_in_body] returns there: [compute_qp_objective]
    returns a pair [(H, c)], [H] is the [nv]-by-[nv] array
    [Jw^T Jw + mu I] and [c] the [nv]-vector [- ew^T Jw], where
    [Jw = diag(cost) J], [ew = diag(cost) (gain e)] and
    [mu = lm_damping (ew^T ew)]. *)
Theorem compute_qp_objective_formula (self : t) (robot : ConfiguredRobot) (T : SE3) :
  length (cost self) = 6%nat ->
  transform_target_to_world self = Some T ->
  let J := get_body_jacobian robot (body self) in
  let n := robot_nv robot in
  exists (e : vec) (H : mat) (c : vec),
    fst (compute_error_in_body robot self) = Ok e
    /\ fst (compute_qp_objective robot self) = Ok (H, c)
    /\ meq H (tabulate n n (QpSpec.H (cost self) (gain self) (lm_damping self) J e))
    /\ veq c (map (QpSpec.c (cost self) (gain self) J e) (seq 0 n)).
Proof.
  intros Hcost Htarget J n.
  set (e := error_of self robot T).
  set (obj := qp_objective (cost self) (lm_damping self) n J (vscale (gain self) e)).
  exists e, (fst obj), (snd obj).
  split; [|split].
  - rewrite (compute_error_in_body_set self robot Htarget). reflexivity.
  - rewrite (compute_qp_objective_set self robot Htarget).
    change (Ok obj = Ok (fst obj, snd obj)). now rewrite <- surjective_pairing.
  - apply qp_objective_entries.
    + exact Hcost.
    + apply get_body_jacobian_rows.
    + apply ncols_body_jacobian.
    + apply length_error_of.
Qed.

Lemma Forall2_nth_rel {A B : Type} (R : A -> B -> Prop) (l : list A) (l' : list B)
    (i : nat) (d : A) (d' : B) :
  Forall2 R l l' -> (i < length l)%nat -> R (nth i l d) (nth i l' d').
Proof.
  intros H. revert i. induction H as [|x y l l' Hxy H IH]; intros [|i] Hi; simpl in *; try lia.
  - exact Hxy.
  - apply IH. lia.
Qed.

Lemma meq_tabulate_entry (A : mat) (n m : nat) (h : nat -> nat -> Q) (i j : nat) :
  meq A (tabulate n m h) -> (i < n)%nat -> (j < m)%nat -> QpSpec.entry A i j == h i j.
Proof.
  intros HA Hi Hj. rewrite <- (@entry_tabulate n m h i j Hi Hj). unfold QpSpec.entry.
  assert (HlenA : length A = n).
  { pose proof (Forall2_length HA) as HL. unfold tabulate in HL.
    rewrite length_map, length_seq in HL. exact HL. }
  assert (Hrow : veq (nth i A []) (nth i (tabulate n m h) [])).
  { apply Forall2_nth_rel; [exact HA | lia]. }
  apply Forall2_nth_rel; [exact Hrow|].
  pose proof (Forall2_length Hrow) as HL. unfold tabulate in HL.
  rewrite (nth_map_seq (fun i => map (fun j => h i j) (seq 0 m)) 0 [] Hi) in HL.
  rewrite length_map, length_seq in HL. simpl in HL. lia.
Qed.

Lemma qsum_map_ge_term {A : Type} (f : A -> Q) (l : list A) (k : A) :
  (forall x, In x l -> 0 <= f x) -> In k l -> f k <= qsum (map f l).
Proof.
  induction l as [|a l IH]; intros Hpos Hk; [contradiction|]. simpl.
  assert (Ha : 0 <= f a) by (apply Hpos; left; reflexivity).
  assert (Hl : 0 <= qsum (map f l))
    by (apply qsum_map_nonneg; intros x Hx; apply Hpos; right; exact Hx).
  destruct Hk as [->|Hk].
  - lra.
  - assert (f k <= qsum (map f l))
      by (apply IH; [intros x Hx; apply Hpos; right; exact Hx | exact Hk]).
    lra.
Qed.

Lemma square_positive (x : Q) : ~ x == 0 -> 0 < x * x.
Proof.
  intros Hx. destruct (Q_dec x 0) as [[Hlt|Hgt]|Heq]; [nra | nra | contradiction].
Qed.

(** X4.  The damping term makes the diagonal of [H] strictly positive as
    soon as the damping scale is positive and the weighted error is not
    zero. *)
Theorem hessian_diagonal_positive (self : t) (robot : ConfiguredRobot) (T : SE3) :
  length (cost self) = 6%nat ->
  transform_target_to_world self = Some T ->
  0 < lm_damping self ->
  (exists k, (k < 6)%nat
     /\ ~ QpSpec.ew (cost self) (gain self) (error_of self robot T) k == 0) ->
  exists (H : mat) (c : vec),
    fst (compute_qp_objective robot self) = Ok (H, c)
    /\ forall i, (i < robot_nv robot)%nat -> 0 < QpSpec.entry H i i.
Proof.
  intros Hcost Htarget Hlm [k [Hk Hnz]].
  set (e := error_of self robot T) in *.
  set (J := get_body_jacobian robot (body self)).
  set (obj := qp_objective (cost self) (lm_damping self) (robot_nv robot) J
                (vscale (gain self) e)).
  exists (fst obj), (snd obj). split.
  - rewrite (compute_qp_objective_set self robot Htarget).
    change (Ok obj = Ok (fst obj, snd obj)). now rewrite <- surjective_pairing.
  - intros i Hi.
    destruct (@qp_objective_entries (cost self) (gain self) (lm_damping self)
                (robot_nv robot) J e Hcost (get_body_jacobian_rows robot (body self))
                (ncols_body_jacobian robot (body self)) (length_error_of self robot T))
      as [HH _].
    unfold obj. rewrite (@meq_tabulate_entry _ _ _ _ i i HH Hi Hi).
    unfold QpSpec.H, QpSpec.mu, delta. rewrite Nat.eqb_refl.
    assert (Hgram : 0 <= sum_upto 6 (fun k0 => QpSpec.Jw (cost self) J k0 i
                                               * QpSpec.Jw (cost self) J k0 i)).
    { apply qsum_map_nonneg. intros x _. nra. }
    assert (Hterm : QpSpec.ew (cost self) (gain self) e k * QpSpec.ew (cost self) (gain self) e k
                    <= sum_upto 6 (fun k0 => QpSpec.ew (cost self) (gain self) e k0
                                             * QpSpec.ew (cost self) (gain self) e k0)).
    { apply (qsum_map_ge_term
               (fun k0 => QpSpec.ew (cost self) (gain self) e k0
                          * QpSpec.ew (cost self) (gain self) e k0)).
      - intros x _. nra.
      - apply in_seq. lia. }
    pose proof (square_positive Hnz) as Hsq.
    assert (Hmu : 0 < lm_damping self
                      * sum_upto 6 (fun k0 => QpSpec.ew (cost self) (gain self) e k0
                                              * QpSpec.ew (cost self) (gain self) e k0)).
    { apply Qmult_lt_0_compat; [exact Hlm | lra]. }
    lra.
Qed.

End WithProvider.

(** The formula at the slider, one metre short of its target. *)
Lemma compute_qp_objective_formula_witness :
  exists (e : vec) (H : mat) (c : vec),
    fst (compute_error_in_body (Slider.at_position 0) (Slider.task (1 # 1000000))) = Ok e
    /\ fst (compute_qp_objective (Slider.at_position 0) (Slider.task (1 # 1000000))) = Ok (H, c)
    /\ meq H (tabulate 1 1 (QpSpec.H [1; 1; 1; 1; 1; 1] 1 (1 # 1000000) Slider.jacobian e))
    /\ veq c (map (QpSpec.c [1; 1; 1; 1; 1; 1] 1 Slider.jacobian e) (seq 0 1)).
Proof.
  exact (@compute_qp_objective_formula Slider.kinematics (Slider.task (1 # 1000000))
           (Slider.at_position 0) (Slider.target_at 1) eq_refl eq_refl).
Defined.

Lemma hessian_diagonal_positive_witness :
  exists (H : mat) (c : vec),
    fst (compute_qp_objective (Slider.at_position 0) (Slider.task (1 # 1000000))) = Ok (H, c)
    /\ forall i, (i < 1)%nat -> 0 < QpSpec.entry H i i.
Proof.
  apply (@hessian_diagonal_positive Slider.kinematics (Slider.task (1 # 1000000))
           (Slider.at_position 0) (Slider.target_at 1) eq_refl eq_refl).
  - reflexivity.
  - exists 0%nat. split; [lia|]. vm_compute. discriminate.
Defined.

End QpObjective.

(** * [BodyTask]: what a call leaves of the task *)

Module BodyTaskState.

Import NpFacts QpFacts PsdFacts BodyTask BodyTaskFacts.
Local Open Scope Q_scope.

Section WithProvider.

Context {K : Kinematics}.

(** The tunable parameters of a task: everything but the cached error. *)
Definition same_parameters (a b : t) : Prop :=
  body a = body b /\ cost a = cost b /\ gain a = gain b
  /\ lm_damping a = lm_damping b
  /\ transform_target_to_world a = transform_target_to_world b.

Lemma same_parameters_refl (a : t) : same_parameters a a.
Proof. repeat split. Qed.

Lemma same_parameters_with_error (a : t) (e : vec) : same_parameters (with_error_in_body a e) a.
Proof. repeat split. Qed.

(** What a cost setter does, case by case. *)
Definition cost_setter (start : nat) (c : cost_input) (self : t) : result unit * t :=
  match check_cost c, assign_slice3 (cost self) start c with
  | Ok _, Ok cost' => (Ok tt, with_cost self cost')
  | Ok _, Raise e => (Raise e, self)
  | Raise e, _ => (Raise e, self)
  end.

Lemma set_position_cost_unfold (c : cost_input) (self : t) :
  set_position_cost c self = cost_setter 0 c self.
Proof.
  unfold set_position_cost, cost_setter, mbind, lift, get, put.
  destruct (check_cost c); [|reflexivity].
  destruct (assign_slice3 (cost self) 0 c); reflexivity.
Qed.

Lemma set_orientation_cost_unfold (c : cost_input) (self : t) :
  set_orientation_cost c self = cost_setter 3 c self.
Proof.
  unfold set_orientation_cost, cost_setter, mbind, lift, get, put.
  destruct (check_cost c); [|reflexivity].
  destruct (assign_slice3 (cost self) 3 c); reflexivity.
Qed.

Lemma assign_slice3_length (a : vec) (start : nat) (c : cost_input) (a' : vec) :
  length a = 6%nat -> (start = 0 \/ start = 3)%nat ->
  assign_slice3 a start c = Ok a' -> length a' = 6%nat.
Proof.
  intros Ha Hs H.
  assert (G : forall x y z : Q,
            length (firstn start a ++ [x; y; z] ++ skipn (start + 3) a) = 6%nat).
  { intros x y z. rewrite !length_app, length_firstn, length_skipn. simpl. lia. }
  destruct c as [x | [|x [|y [|z [|w l]]]]]; simpl in H; inversion H; apply G.
Qed.

(** A setter leaves a task whose cost still has six entries, and
    touches nothing else. *)
Lemma set_cost_keeps (start : nat) (c : cost_input) (self : t) :
  (start = 0 \/ start = 3)%nat ->
  let self' := snd (cost_setter start c self) in
  body self' = body self /\ gain self' = gain self
  /\ lm_damping self' = lm_damping self
  /\ transform_target_to_world self' = transform_target_to_world self
  /\ error_in_body self' = error_in_body self
  /\ (length (cost self) = 6%nat -> length (cost self') = 6%nat).
Proof.
  intros Hs. unfold cost_setter.
  destruct (check_cost c); [|simpl; tauto].
  destruct (assign_slice3 (cost self) start c) as [a'|] eqn:E; simpl; [|tauto].
  repeat split. intros Ha. eapply assign_slice3_length; eassumption.
Qed.

Lemma init_fields (Task_gain : Q) (b : string) (pc oc : cost_input) (lm : Q) (self : t) :
  __init__ Task_gain b pc oc lm = Ok self ->
  body self = b /\ gain self = Task_gain /\ lm_damping self = lm
  /\ transform_target_to_world self = None
  /\ error_in_body self = repeat 0 6
  /\ length (cost self) = 6%nat.
Proof.
  unfold __init__. set (s0 := mk b (ones 6) (repeat 0 6) lm None Task_gain).
  unfold mbind at 1.
  pose proof (@set_cost_keeps 0%nat pc s0 (or_introl eq_refl)) as H1.
  rewrite <- set_position_cost_unfold in H1.
  destruct (set_position_cost pc s0) as [[u|e1] s1]; [|discriminate].
  pose proof (@set_cost_keeps 3%nat oc s1 (or_intror eq_refl)) as H2.
  rewrite <- set_orientation_cost_unfold in H2.
  destruct (set_orientation_cost oc s1) as [[u'|e2] s2]; [|discriminate].
  intros E. inversion E; subst self. simpl in H1, H2.
  destruct H1 as (B1 & G1 & L1 & T1 & E1 & C1), H2 as (B2 & G2 & L2 & T2 & E2 & C2).
  rewrite B2, G2, L2, T2, E2, B1, G1, L1, T1, E1.
  repeat split. apply C2, C1. reflexivity.
Qed.

(** The three computations write [error_in_body] and nothing else. *)
Lemma compute_error_in_body_state (self : t) (robot : ConfiguredRobot) :
  snd (compute_error_in_body robot self)
  = match fst (compute_error_in_body robot self) with
    | Ok e => with_error_in_body self e
    | Raise _ => self
    end.
Proof.
  destruct (transform_target_to_world self) as [T|] eqn:E.
  - now rewrite (compute_error_in_body_set self robot E).
  - now rewrite compute_error_in_body_unset by exact E.
Qed.

Lemma compute_task_dynamics_state (self : t) (robot : ConfiguredRobot) :
  snd (compute_task_dynamics robot self) = snd (compute_error_in_body robot self).
Proof.
  destruct (transform_target_to_world self) as [T|] eqn:E.
  - now rewrite (compute_task_dynamics_set self robot E), (compute_error_in_body_set self robot E).
  - now rewrite compute_task_dynamics_unset, compute_error_in_body_unset by exact E.
Qed.

Lemma compute_qp_objective_state (self : t) (robot : ConfiguredRobot) :
  snd (compute_qp_objective robot self) = snd (compute_error_in_body robot self).
Proof.
  destruct (transform_target_to_world self) as [T|] eqn:E.
  - now rewrite (compute_qp_objective_set self robot E), (compute_error_in_body_set self robot E).
  - now rewrite compute_qp_objective_unset, compute_error_in_body_unset by exact E.
Qed.

Lemma compute_error_in_body_keeps (self : t) (robot : ConfiguredRobot) :
  same_parameters (snd (compute_error_in_body robot self)) self.
Proof.
  rewrite compute_error_in_body_state.
  destruct (fst (compute_error_in_body robot self)).
  - apply same_parameters_with_error.
  - apply same_parameters_refl.
Qed.

(** What any one call keeps. *)
Lemma perform_keeps (self : t) (c : call) :
  body (perform self c) = body self
  /\ gain (perform self c) = gain self
  /\ lm_damping (perform self c) = lm_damping self
  /\ (length (cost self) = 6%nat -> length (cost (perform self c)) = 6%nat)
  /\ (is_set_target c = false ->
      transform_target_to_world (perform self c) = transform_target_to_world self)
  /\ (forall T, c = SetTarget T -> transform_target_to_world (perform self c) = Some T).
Proof.
  destruct c as [x|x|T|robot|robot|robot]; simpl.
  - destruct (@set_cost_keeps 0%nat x self (or_introl eq_refl)) as (B & G & L & T & _ & C).
    rewrite <- set_position_cost_unfold in B, G, L, T, C.
    repeat split; auto; intros; discriminate.
  - destruct (@set_cost_keeps 3%nat x self (or_intror eq_refl)) as (B & G & L & T & _ & C).
    rewrite <- set_orientation_cost_unfold in B, G, L, T, C.
    repeat split; auto; intros; discriminate.
  - repeat split; auto; try discriminate. intros T0 H0. now inversion H0.
  - destruct (compute_error_in_body_keeps self robot) as (B & C & G & L & T).
    repeat split; auto; try congruence; intros; discriminate.
  - rewrite compute_task_dynamics_state.
    destruct (compute_error_in_body_keeps self robot) as (B & C & G & L & T).
    repeat split; auto; try congruence; intros; discriminate.
  - rewrite compute_qp_objective_state.
    destruct (compute_error_in_body_keeps self robot) as (B & C & G & L & T).
    repeat split; auto; try congruence; intros; discriminate.
Qed.

Lemma perform_keeps_target_set (self : t) (c : call) :
  transform_target_to_world self <> None ->
  transform_target_to_world (perform self c) <> None.
Proof.
  intros Hset. destruct (is_set_target c) eqn:E.
  - destruct c; try discriminate E.
    destruct (perform_keeps self (SetTarget T)) as (_ & _ & _ & _ & _ & H).
    rewrite (H T eq_refl). discriminate.
  - destruct (perform_keeps self c) as (_ & _ & _ & _ & H & _). now rewrite (H E).
Qed.

Lemma perform_all_keeps (calls : list call) (self : t) :
  body (perform_all self calls) = body self
  /\ gain (perform_all self calls) = gain self
  /\ lm_damping (perform_all self calls) = lm_damping self
  /\ (length (cost self) = 6%nat -> length (cost (perform_all self calls)) = 6%nat)
  /\ (forallb (fun c => negb (is_set_target c)) calls = true ->
      transform_target_to_world (perform_all self calls) = transform_target_to_world self)
  /\ (transform_target_to_world self <> None ->
      transform_target_to_world (perform_all self calls) <> None).
Proof.
  revert self. induction calls as [|c calls IH]; intros self; simpl.
  - repeat split; auto.
  - destruct (IH (perform self c)) as (B & G & L & C & T & S).
    destruct (perform_keeps self c) as (B1 & G1 & L1 & C1 & T1 & _).
    fold (perform_all (perform self c) calls).
    rewrite B, G, L, B1, G1, L1. repeat split; auto.
    + intros H. apply andb_prop in H. destruct H as [Hc Hcalls].
      rewrite (T Hcalls). apply T1. now destruct (is_set_target c).
    + intros H. apply S. now apply perform_keeps_target_set.
Qed.

End WithProvider.

End BodyTaskState.

(** * [BodyTask]: the Hessian is symmetric and positive semi-definite *)

Module QpHessian.

Import NpFacts QpFacts PsdFacts BodyTask BodyTaskFacts BodyTaskState.
Local Open Scope Q_scope.

(** A cost argument the setters accept: a float that is not negative, or
    a sequence of such floats that fits the three coordinates. *)
Definition valid_cost (c : cost_input) : Prop :=
  match c with
  | CostFloat x => 0 <= x
  | CostSeq l => Forall (fun x => 0 <= x) l /\ (length l = 3%nat \/ length l = 1%nat)
  end.

Section WithProvider.

Context {K : Kinematics}.

Lemma check_cost_valid (c : cost_input) : valid_cost c -> check_cost c = Ok tt.
Proof.
  destruct c as [x|l]; simpl; unfold py_assert.
  - intros H. apply Qle_bool_iff in H. now rewrite H.
  - intros [H _]. replace (forallb (Qle_bool 0) l) with true; [reflexivity|].
    symmetry. apply forallb_forall. intros x Hx. apply Qle_bool_iff.
    rewrite Forall_forall in H. now apply H.
Qed.

Lemma assign_slice3_valid (a : vec) (start : nat) (c : cost_input) :
  valid_cost c -> exists a', assign_slice3 a start c = Ok a'.
Proof.
  destruct c as [x|l]; simpl.
  - intros _. eexists. reflexivity.
  - intros [_ [H|H]]; destruct l as [|x [|y [|z [|w l]]]]; simpl in H; try discriminate;
      eexists; reflexivity.
Qed.

Lemma cost_setter_valid (start : nat) (c : cost_input) (self : t) :
  valid_cost c -> exists self', cost_setter start c self = (Ok tt, self').
Proof.
  intros H. unfold cost_setter. rewrite (check_cost_valid c H).
  destruct (assign_slice3_valid (cost self) start c H) as [a' ->]. eexists. reflexivity.
Qed.

Lemma init_valid (Task_gain : Q) (b : string) (pc oc : cost_input) (lm : Q) :
  valid_cost pc -> valid_cost oc -> exists self, __init__ Task_gain b pc oc lm = Ok self.
Proof.
  intros Hp Ho. unfold __init__, mbind.
  rewrite set_position_cost_unfold.
  destruct (cost_setter_valid 0 pc (mk b (ones 6) (repeat 0 6) lm None Task_gain) Hp)
    as [s1 ->].
  rewrite set_orientation_cost_unfold.
  destruct (cost_setter_valid 3 oc s1 Ho) as [s2 ->]. eexists. reflexivity.
Qed.

Lemma perform_all_target_set (calls : list call) (self : t) :
  existsb is_set_target calls = true ->
  transform_target_to_world (perform_all self calls) <> None.
Proof.
  revert self. induction calls as [|c calls IH]; intros self H; simpl in H; [discriminate|].
  simpl. fold (perform_all (perform self c) calls).
  destruct (is_set_target c) eqn:E.
  - destruct c; try discriminate E.
    destruct (perform_all_keeps calls (perform self (SetTarget T))) as (_ & _ & _ & _ & _ & S).
    apply S. simpl. discriminate.
  - apply IH. exact H.
Qed.

(** The Hessian a task with six costs, a target and a non-negative
    damping scale returns. *)
Lemma hessian_of_task (self : t) (robot : ConfiguredRobot) :
  length (cost self) = 6%nat -> 0 <= lm_damping self ->
  transform_target_to_world self <> None ->
  exists (H : mat) (c : vec),
    fst (compute_qp_objective robot self) = Ok (H, c)
    /\ QpSpec.symmetric (robot_nv robot) H
    /\ QpSpec.positive_semidefinite (robot_nv robot) H.
Proof.
  intros Hcost Hlm Hset.
  destruct (transform_target_to_world self) as [T|] eqn:E; [clear Hset | congruence].
  set (obj := qp_objective (cost self) (lm_damping self) (robot_nv robot)
                (get_body_jacobian robot (body self))
                (vscale (gain self) (error_of self robot T))).
  assert (Hw : ncols (weighted_jacobian (cost self) (get_body_jacobian robot (body self)))
               = robot_nv robot).
  { apply ncols_weighted_jacobian; [lia | apply ncols_body_jacobian]. }
  exists (fst obj), (snd obj). split; [|split].
  - rewrite (compute_qp_objective_set self robot E).
    change (Ok obj = Ok (fst obj, snd obj)). now rewrite <- surjective_pairing.
  - apply qp_objective_symmetric. exact Hw.
  - apply qp_objective_psd; assumption.
Qed.

(** C4, as the code has it.  For cost arguments that are floats or
    vectors without a negative entry, and a Levenberg-Marquardt scale
    [lm_damping] that is not negative, the task is constructed, and
    whenever a target has been set, [compute_qp_objective] returns, for
    every Jacobian and error the provider supplies, a matrix [H] that
    is symmetric and positive semi-definite. *)
Theorem hessian_symmetric_psd (Task_gain : Q) (b : string) (position_cost orientation_cost : cost_input)
    (lm : Q) :
  valid_cost position_cost -> valid_cost orientation_cost -> 0 <= lm ->
  exists self : t,
    __init__ Task_gain b position_cost orientation_cost lm = Ok self
    /\ forall (calls : list call) (robot : ConfiguredRobot),
         existsb is_set_target calls = true ->
         exists (H : mat) (c : vec),
           fst (compute_qp_objective robot (perform_all self calls)) = Ok (H, c)
           /\ QpSpec.symmetric (robot_nv robot) H
           /\ QpSpec.positive_semidefinite (robot_nv robot) H.
Proof.
  intros Hp Ho Hlm.
  destruct (@init_valid Task_gain b position_cost orientation_cost lm Hp Ho) as [self Hinit].
  exists self. split; [exact Hinit|].
  intros calls robot Hcalls.
  destruct (@init_fields _ _ _ _ _ _ _ Hinit) as (_ & _ & L & _ & _ & C).
  destruct (perform_all_keeps calls self) as (_ & _ & L' & C' & _ & _).
  apply hessian_of_task.
  - apply C'. exact C.
  - rewrite L', L. exact Hlm.
  - apply perform_all_target_set. exact Hcalls.
Qed.

(** A cost argument with a negative entry. *)
Definition has_negative (c : cost_input) : Prop :=
  match c with
  | CostFloat x => x < 0
  | CostSeq l => Exists (fun x => x < 0) l
  end.

Lemma check_cost_negative (c : cost_input) :
  has_negative c -> check_cost c = Raise (AssertionError EmptyString).
Proof.
  destruct c as [x|l]; simpl; unfold py_assert.
  - intros Hx. destruct (Qle_bool 0 x) eqn:E; [|reflexivity].
    apply Qle_bool_iff in E. lra.
  - intros Hl. destruct (forallb (Qle_bool 0) l) eqn:E; [|reflexivity].
    rewrite forallb_forall in E. apply Exists_exists in Hl.
    destruct Hl as [x [Hin Hx]]. specialize (E x Hin). apply Qle_bool_iff in E. lra.
Qed.

(** X3.  The setters refuse a cost with a negative entry: the assertion
    fails before anything is written, and no task is constructed from
    it. *)
Theorem setters_reject_negative_cost (self : t) (c : cost_input) :
  has_negative c ->
  set_position_cost c self = (Raise (AssertionError EmptyString), self)
  /\ set_orientation_cost c self = (Raise (AssertionError EmptyString), self)
  /\ forall (Task_gain : Q) (b : string) (other : cost_input) (lm : Q),
       __init__ Task_gain b c other lm = Raise (AssertionError EmptyString).
Proof.
  intros Hneg. pose proof (check_cost_negative c Hneg) as Hcheck.
  rewrite set_position_cost_unfold, set_orientation_cost_unfold.
  unfold cost_setter. rewrite Hcheck. repeat split.
  intros Task_gain b other lm. unfold __init__, mbind.
  rewrite set_position_cost_unfold. unfold cost_setter. rewrite Hcheck. reflexivity.
Qed.

End WithProvider.

Lemma setters_reject_negative_cost_witness :
  set_position_cost (CostSeq [1; - (1); 1]) (Slider.task (1 # 1000000))
  = (Raise (AssertionError EmptyString), Slider.task (1 # 1000000))
  /\ set_orientation_cost (CostSeq [1; - (1); 1]) (Slider.task (1 # 1000000))
     = (Raise (AssertionError EmptyString), Slider.task (1 # 1000000))
  /\ forall (Task_gain : Q) (b : string) (other : cost_input) (lm : Q),
       __init__ (K := Slider.kinematics) Task_gain b (CostSeq [1; - (1); 1]) other lm
       = Raise (AssertionError EmptyString).
Proof.
  apply (@setters_reject_negative_cost Slider.kinematics (Slider.task (1 # 1000000))
           (CostSeq [1; - (1); 1])).
  simpl. apply Exists_cons_tl. apply Exists_cons_hd. reflexivity.
Defined.

(** The theorem at the slider with the default damping scale. *)
Lemma hessian_symmetric_psd_witness :
  exists self : t,
    __init__ (K := Slider.kinematics) 1 "slider" (CostFloat 1) (CostSeq [1; 0; 2]) (1 # 1000000)
    = Ok self
    /\ forall (calls : list call) (robot : @ConfiguredRobot Slider.kinematics),
         existsb is_set_target calls = true ->
         exists (H : mat) (c : vec),
           fst (compute_qp_objective robot (perform_all self calls)) = Ok (H, c)
           /\ QpSpec.symmetric (robot_nv robot) H
           /\ QpSpec.positive_semidefinite (robot_nv robot) H.
Proof.
  apply (@hessian_symmetric_psd Slider.kinematics 1 "slider" (CostFloat 1) (CostSeq [1; 0; 2])
           (1 # 1000000)).
  - simpl. lra.
  - simpl. split; [repeat constructor; lra | left; reflexivity].
  - lra.
Defined.

(** C4 as stated fails: with unit costs and the damping scale [-2], the
    slider one metre short of its target gets the 1-by-1 Hessian [-1]. *)
Lemma negative_damping_hessian :
  __init__ (K := Slider.kinematics) 1 "slider" (CostFloat 1) (CostFloat 1) (-2)
  = Ok (Slider.new_task (-2))
  /\ valid_cost (CostFloat 1)
  /\ snd (set_target (Slider.target_at 1) (Slider.new_task (-2))) = Slider.task (-2)
  /\ exists (H : mat) (c : vec),
       fst (compute_qp_objective (Slider.at_position 0) (Slider.task (-2))) = Ok (H, c)
       /\ QpSpec.quad_form H [1] < 0
       /\ ~ QpSpec.positive_semidefinite 1 H.
Proof.
  split; [reflexivity|]. split; [simpl; lra|]. split; [reflexivity|].
  eexists. eexists. split; [reflexivity|].
  assert (Hneg : QpSpec.quad_form
                   (fst (qp_objective [1; 1; 1; 1; 1; 1] (-2) 1 Slider.jacobian
                           (vscale 1 (vneg (Slider.box_minus (1, 0, 0) (0, 0, 0))))))
                   [1] < 0) by (vm_compute; reflexivity).
  split; [exact Hneg|].
  intros Hpsd. specialize (Hpsd [1] eq_refl).
  apply (Qlt_not_le _ _ Hneg). exact Hpsd.
Qed.

End QpHessian.

(** * [BodyTask]: the unset target, and what a computation writes *)

Module BodyTaskEffects.

Import NpFacts BodyTask BodyTaskFacts BodyTaskState.
Local Open Scope Q_scope.

Section WithProvider.

Context {K : Kinematics}.

(** C6.  On a task as constructed, and after any calls none of which is
    [set_target], [compute_error_in_body] raises [TargetNotSet] with the
    message that names the task's body, and leaves the task as it was;
    so do [compute_task_dynamics] and [compute_qp_objective]: none
    returns an error vector or an objective.  After a [set_target],
    whatever is called next, [compute_error_in_body] returns an error. *)
Theorem target_not_set (Task_gain : Q) (b : string) (position_cost orientation_cost : cost_input)
    (lm : Q) (self0 : t) (calls : list call) (robot : ConfiguredRobot) :
  __init__ Task_gain b position_cost orientation_cost lm = Ok self0 ->
  forallb (fun c => negb (is_set_target c)) calls = true ->
  let self := perform_all self0 calls in
  let unset := TargetNotSet ("no target set for body " ++ b) in
  compute_error_in_body robot self = (Raise unset, self)
  /\ compute_task_dynamics robot self = (Raise unset, self)
  /\ compute_qp_objective robot self = (Raise unset, self)
  /\ forall (T : SE3) (calls' : list call) (robot' : ConfiguredRobot),
       exists e : vec,
         fst (compute_error_in_body robot' (perform_all self (SetTarget T :: calls'))) = Ok e.
Proof.
  intros Hinit Hcalls self unset.
  destruct (@init_fields _ _ _ _ _ _ _ Hinit) as (B & _ & _ & T0 & _ & _).
  destruct (perform_all_keeps calls self0) as (B' & _ & _ & _ & T' & _).
  assert (Hnone : transform_target_to_world self = None)
    by (unfold self; rewrite (T' Hcalls); exact T0).
  assert (Hunset : unset_target_error self = unset)
    by (unfold unset_target_error, unset, self; rewrite B', B; reflexivity).
  rewrite <- Hunset. repeat split.
  - apply compute_error_in_body_unset. exact Hnone.
  - apply compute_task_dynamics_unset. exact Hnone.
  - apply compute_qp_objective_unset. exact Hnone.
  - intros T calls' robot'.
    assert (Hset : transform_target_to_world (perform_all self (SetTarget T :: calls')) <> None).
    { simpl. fold (perform_all (perform self (SetTarget T)) calls').
      destruct (perform_all_keeps calls' (perform self (SetTarget T)))
        as (_ & _ & _ & _ & _ & S).
      apply S. simpl. discriminate. }
    destruct (transform_target_to_world (perform_all self (SetTarget T :: calls')))
      as [T1|] eqn:E; [|congruence].
    eexists. rewrite (compute_error_in_body_set _ robot' E). reflexivity.
Qed.

(** C8, as the code has it.  Each of the three computations leaves the
    body name, the cost, the gain, the damping scale and the target as
    they were; the one attribute it writes is [error_in_body], which
    takes the error just computed (nothing is written when the target
    is unset).  What is returned does not depend on [error_in_body], so
    a repeated call at one configuration returns the same result and
    leaves the same task. *)
Theorem computations_keep_parameters (self : t) (robot : ConfiguredRobot) :
  let after_error := snd (compute_error_in_body robot self) in
  let after_dynamics := snd (compute_task_dynamics robot self) in
  let after_objective := snd (compute_qp_objective robot self) in
  same_parameters after_error self
  /\ after_dynamics = after_error /\ after_objective = after_error
  /\ after_error = match fst (compute_error_in_body robot self) with
                   | Ok e => with_error_in_body self e
                   | Raise _ => self
                   end
  /\ (forall stale : vec,
        fst (compute_error_in_body robot (with_error_in_body self stale))
        = fst (compute_error_in_body robot self)
        /\ fst (compute_task_dynamics robot (with_error_in_body self stale))
           = fst (compute_task_dynamics robot self)
        /\ fst (compute_qp_objective robot (with_error_in_body self stale))
           = fst (compute_qp_objective robot self))
  /\ compute_error_in_body robot after_error
     = (fst (compute_error_in_body robot self), after_error)
  /\ compute_task_dynamics robot after_dynamics
     = (fst (compute_task_dynamics robot self), after_dynamics)
  /\ compute_qp_objective robot after_objective
     = (fst (compute_qp_objective robot self), after_objective).
Proof.
  intros after_error after_dynamics after_objective.
  unfold after_error, after_dynamics, after_objective.
  rewrite compute_task_dynamics_state, compute_qp_objective_state.
  split; [apply compute_error_in_body_keeps|].
  split; [reflexivity|]. split; [reflexivity|].
  split; [apply compute_error_in_body_state|].
  destruct (transform_target_to_world self) as [T|] eqn:E.
  - assert (E' : forall stale, transform_target_to_world (with_error_in_body self stale) = Some T)
      by (intros stale; exact E).
    split.
    + intros stale.
      rewrite (compute_error_in_body_set _ robot (E' stale)),
              (compute_task_dynamics_set _ robot (E' stale)),
              (compute_qp_objective_set _ robot (E' stale)),
              (compute_error_in_body_set _ robot E),
              (compute_task_dynamics_set _ robot E),
              (compute_qp_objective_set _ robot E).
      repeat split.
    + rewrite (compute_error_in_body_set _ robot E),
              (compute_task_dynamics_set _ robot E),
              (compute_qp_objective_set _ robot E).
      cbn [fst snd].
      rewrite (compute_error_in_body_set _ robot (E' _)),
              (compute_task_dynamics_set _ robot (E' _)),
              (compute_qp_objective_set _ robot (E' _)).
      repeat split.
  - assert (E' : forall stale, transform_target_to_world (with_error_in_body self stale) = None)
      by (intros stale; exact E).
    split.
    + intros stale.
      rewrite (@compute_error_in_body_unset K _ robot (E' stale)),
              (@compute_task_dynamics_unset K _ robot (E' stale)),
              (@compute_qp_objective_unset K _ robot (E' stale)),
              (@compute_error_in_body_unset K self robot E),
              (@compute_task_dynamics_unset K self robot E),
              (@compute_qp_objective_unset K self robot E).
      repeat split.
    + rewrite (@compute_error_in_body_unset K self robot E),
              (@compute_task_dynamics_unset K self robot E),
              (@compute_qp_objective_unset K self robot E).
      cbn [fst snd].
      rewrite (@compute_error_in_body_unset K self robot E),
              (@compute_task_dynamics_unset K self robot E),
              (@compute_qp_objective_unset K self robot E).
      repeat split.
Qed.

End WithProvider.

(** The slider task as constructed has no target: every computation
    raises, after cost updates as well. *)
Lemma target_not_set_witness :
  let self := perform_all (Slider.new_task (1 # 1000000))
                [SetPositionCost (CostSeq [2; 2; 2]); ComputeErrorInBody (Slider.at_position 0)] in
  let unset := TargetNotSet "no target set for body slider" in
  compute_error_in_body (Slider.at_position (1 # 2)) self = (Raise unset, self)
  /\ compute_task_dynamics (Slider.at_position (1 # 2)) self = (Raise unset, self)
  /\ compute_qp_objective (Slider.at_position (1 # 2)) self = (Raise unset, self)
  /\ forall (T : @SE3 Slider.kinematics) (calls' : list call)
            (robot' : @ConfiguredRobot Slider.kinematics),
       exists e : vec,
         fst (compute_error_in_body robot' (perform_all self (SetTarget T :: calls'))) = Ok e.
Proof.
  exact (@target_not_set Slider.kinematics 1 "slider" (CostFloat 1) (CostFloat 1) (1 # 1000000)
           (Slider.new_task (1 # 1000000))
           [SetPositionCost (CostSeq [2; 2; 2]); ComputeErrorInBody (Slider.at_position 0)]
           (Slider.at_position (1 # 2)) eq_refl eq_refl).
Defined.

(** C8 as stated fails: computing the error of the slider task, one
    metre short of its target, overwrites the attribute [error_in_body]
    of the task object. *)
Lemma compute_error_in_body_writes :
  error_in_body (Slider.task (1 # 1000000)) = [0; 0; 0; 0; 0; 0]
  /\ fst (compute_error_in_body (Slider.at_position 0) (Slider.task (1 # 1000000)))
     = Ok [-1 # 1; 0; 0; 0; 0; 0]
  /\ error_in_body (snd (compute_error_in_body (Slider.at_position 0) (Slider.task (1 # 1000000))))
     = [-1 # 1; 0; 0; 0; 0; 0]
  /\ snd (compute_error_in_body (Slider.at_position 0) (Slider.task (1 # 1000000)))
     <> Slider.task (1 # 1000000).
Proof.
  split; [reflexivity|]. split; [vm_compute; reflexivity|].
  split; [vm_compute; reflexivity|].
  intros H. apply (f_equal error_in_body) in H. vm_compute in H. discriminate H.
Qed.

End BodyTaskEffects.

(** * [BoundedTangent]: the constructor *)

Module BoundedTangentFacts.

Import NpFacts BoundedTangent.

(** The test of lines 51-54 on configuration coordinate [k]: the upper
    limit is below [1e20], and above the lower limit by more than
    [1e-10]. *)
Definition coordinate_has_limit (model : Model) (k : nat) : bool :=
  xlt (nth k (upperPositionLimit model) PosInf) (Fin unbounded_threshold)
  && xlt (xadd (nth k (lowerPositionLimit model) NegInf) min_width)
         (nth k (upperPositionLimit model) PosInf).

(** The configuration coordinates and the tangent coordinates of a joint. *)
Definition joint_coordinates (joint : JointModel) : list nat :=
  map Z.to_nat (py_range (idx_q joint) (idx_q joint + nq joint)).

Definition tangent_range (joint : JointModel) : list Z :=
  py_range (idx_v joint) (idx_v joint + nv joint).

(** A joint is eligible when its configuration index is not negative
    (the universe joint has index -1) and all its coordinates pass. *)
Definition eligible (model : Model) (joint : JointModel) : bool :=
  (0 <=? idx_q joint)%Z && forallb (coordinate_has_limit model) (joint_coordinates joint).

(** A model whose arrays have the sizes it declares and whose joints lie
    inside them; a joint of the configuration space moves. *)
Record well_formed (model : Model) : Prop := {
  wf_upper : length (upperPositionLimit model) = model_nq model;
  wf_lower : length (lowerPositionLimit model) = model_nq model;
  wf_velocity : length (velocityLimit model) = model_nv model;
  wf_joints : Forall (fun joint =>
      (0 <= idx_q joint ->
       0 <= nq joint /\ idx_q joint + nq joint <= Z.of_nat (model_nq model)
       /\ 0 <= idx_v joint /\ 0 < nv joint
       /\ idx_v joint + nv joint <= Z.of_nat (model_nv model))%Z) (joints model)
}.

Lemma nth_has_configuration_limit (model : Model) (k : nat) :
  (k < length (upperPositionLimit model))%nat ->
  (k < length (lowerPositionLimit model))%nat ->
  nth k (has_configuration_limit model) false = coordinate_has_limit model k.
Proof.
  intros Hu Hl. unfold has_configuration_limit, coordinate_has_limit.
  rewrite (nth_zip_with andb _ _ false false false).
  - rewrite (nth_zip_with _ _ _ PosInf NegInf false) by assumption.
    f_equal. rewrite (nth_indep _ false (xlt PosInf (Fin unbounded_threshold)))
      by (now rewrite length_map).
    apply (map_nth (fun u => xlt u (Fin unbounded_threshold))).
  - now rewrite length_map.
  - rewrite length_zip_with. lia.
Qed.

Lemma length_has_configuration_limit (model : Model) :
  well_formed model -> length (has_configuration_limit model) = model_nq model.
Proof.
  intros [Hu Hl _ _]. unfold has_configuration_limit.
  rewrite !length_zip_with, length_map. lia.
Qed.

Lemma in_py_range (a b k : Z) : In k (py_range a b) <-> (a <= k < b)%Z.
Proof.
  unfold py_range. rewrite in_map_iff. split.
  - intros [i [<- Hi]]. apply in_seq in Hi. lia.
  - intros Hk. exists (Z.to_nat (k - a)). split; [lia|]. apply in_seq. lia.
Qed.

(** A slice inside the array, read through its indices. *)
Lemma forallb_py_slice (l : list bool) (s e : Z) :
  (0 <= s)%Z -> (s <= e)%Z -> (e <= Z.of_nat (length l))%Z ->
  forallb (fun b => b) (py_slice l s e) = true
  <-> forall k, (s <= k < e)%Z -> nth (Z.to_nat k) l false = true.
Proof.
  intros Hs Hse He. unfold py_slice, py_slice_bound.
  replace (s <? 0)%Z with false by (symmetry; apply Z.ltb_ge; lia).
  replace (e <? 0)%Z with false by (symmetry; apply Z.ltb_ge; lia).
  rewrite !Z.min_l by lia. rewrite forallb_forall. split.
  - intros H k Hk. apply H.
    replace (nth (Z.to_nat k) l false)
      with (nth (Z.to_nat (k - s)) (firstn (Z.to_nat (e - s)) (skipn (Z.to_nat s) l)) false).
    + apply nth_In. rewrite length_firstn, length_skipn. lia.
    + rewrite nth_firstn. replace (Z.to_nat (k - s) <? Z.to_nat (e - s))%nat with true
        by (symmetry; apply Nat.ltb_lt; lia).
      rewrite nth_skipn. f_equal. lia.
  - intros H x Hx. destruct (In_nth _ _ false Hx) as [i [Hi <-]].
    rewrite length_firstn, length_skipn in Hi.
    rewrite nth_firstn. replace (i <? Z.to_nat (e - s))%nat with true
      by (symmetry; apply Nat.ltb_lt; lia).
    rewrite nth_skipn. replace (Z.to_nat s + i)%nat with (Z.to_nat (s + Z.of_nat i)) by lia.
    apply H. lia.
Qed.

(** The filter of the comprehension is the eligibility test. *)
Lemma joint_is_bounded_eligible (model : Model) (joint : JointModel) :
  well_formed model -> In joint (joints model) ->
  joint_is_bounded (has_configuration_limit model) joint = eligible model joint.
Proof.
  intros Hwf Hin. unfold joint_is_bounded, eligible.
  destruct (Z.leb_spec 0 (idx_q joint)) as [Hq|Hq]; [|reflexivity]. simpl.
  pose proof (wf_joints Hwf) as Hj. rewrite Forall_forall in Hj.
  destruct (Hj joint Hin Hq) as (Hnq & Hend & _).
  pose proof (length_has_configuration_limit Hwf) as Hlen.
  apply eq_true_iff_eq. rewrite forallb_py_slice by lia.
  rewrite forallb_forall. unfold joint_coordinates. split.
  - intros H x Hx. apply in_map_iff in Hx. destruct Hx as [k [<- Hk]].
    apply in_py_range in Hk.
    rewrite <- nth_has_configuration_limit.
    + apply H. exact Hk.
    + rewrite (wf_upper Hwf). lia.
    + rewrite (wf_lower Hwf). lia.
  - intros H k Hk. rewrite nth_has_configuration_limit.
    + apply H. apply in_map. apply in_py_range. exact Hk.
    + rewrite (wf_upper Hwf). lia.
    + rewrite (wf_lower Hwf). lia.
Qed.

Lemma collect_indices_flat_map (js : list JointModel) :
  collect_indices js = flat_map tangent_range js.
Proof.
  unfold collect_indices.
  assert (G : forall acc,
            fold_left (fun acc joint => acc ++ py_range (idx_v joint) (idx_v joint + nv joint))
                      js acc
            = acc ++ flat_map tangent_range js).
  { induction js as [|j js IH]; intros acc; simpl.
    - now rewrite app_nil_r.
    - rewrite IH. unfold tangent_range at 2. now rewrite app_assoc. }
  apply (G []).
Qed.

(** Gathering at indices that are inside the array. *)
Lemma getitem_in_range {A : Type} (a : list A) (i : Z) (d : A) :
  (0 <= i < Z.of_nat (length a))%Z -> getitem a i = Ok (nth (Z.to_nat i) a d).
Proof.
  intros Hi. unfold getitem.
  replace ((- Z.of_nat (length a) <=? i)%Z) with true by (symmetry; apply Z.leb_le; lia).
  replace ((i <? Z.of_nat (length a))%Z) with true by (symmetry; apply Z.ltb_lt; lia).
  replace ((i <? 0)%Z) with false by (symmetry; apply Z.ltb_ge; lia).
  simpl. rewrite (nth_error_nth' a d) by lia. reflexivity.
Qed.

Lemma mapM_getitem_in_range {A : Type} (a : list A) (l : list Z) (d : A) :
  Forall (fun i => (0 <= i < Z.of_nat (length a))%Z) l ->
  mapM (getitem a) l = Ok (map (fun i => nth (Z.to_nat i) a d) l).
Proof.
  induction 1 as [|i l Hi Hl IH]; simpl; [reflexivity|].
  rewrite (getitem_in_range a d Hi). simpl. rewrite IH. reflexivity.
Qed.

Lemma take_in_range {A : Type} (a : list A) (l : list Z) (d : A) :
  l <> [] -> Forall (fun i => (0 <= i < Z.of_nat (length a))%Z) l ->
  take a (array_of_ints l) = Ok (map (fun i => nth (Z.to_nat i) a d) l).
Proof.
  intros Hne Hl. unfold take, array_of_ints. destruct l as [|i l]; [congruence|].
  simpl idx_dtype. simpl idx_data. apply mapM_getitem_in_range. exact Hl.
Qed.

Lemma take_empty {A : Type} (a : list A) : take a (array_of_ints []) = Raise IndexError.
Proof. reflexivity. Qed.

Lemma nth_eye (n i : nat) : (i < n)%nat -> nth i (eye n) [] = unit_row n i.
Proof. intros Hi. unfold eye. now rewrite nth_map_seq. Qed.

End BoundedTangentFacts.

(** * [BoundedTangent]: claims about the constructor and [project] *)

Module BoundedTangentClaims.

Import NpFacts BoundedTangent BoundedTangentFacts.

Lemma tangent_indices_in_range (model : Model) (js : list JointModel) :
  well_formed model ->
  (forall joint, In joint js -> In joint (joints model) /\ (0 <= idx_q joint)%Z) ->
  Forall (fun i => (0 <= i < Z.of_nat (model_nv model))%Z) (flat_map tangent_range js).
Proof.
  intros Hwf Hjs. apply Forall_forall. intros i Hi.
  apply in_flat_map in Hi. destruct Hi as [joint [Hj Hi]].
  destruct (Hjs joint Hj) as [Hin Hq].
  pose proof (wf_joints Hwf) as Hall. rewrite Forall_forall in Hall.
  destruct (Hall joint Hin Hq) as (_ & _ & Hv & _ & Hend).
  apply in_py_range in Hi. lia.
Qed.

Lemma tangent_indices_empty (model : Model) (js : list JointModel) :
  well_formed model ->
  (forall joint, In joint js -> In joint (joints model) /\ (0 <= idx_q joint)%Z) ->
  js = [] <-> flat_map tangent_range js = [].
Proof.
  intros Hwf Hjs. split; [intros ->; reflexivity|].
  destruct js as [|joint js]; [reflexivity|]. intros Hnil. exfalso.
  destruct (Hjs joint (or_introl eq_refl)) as [Hin Hq].
  pose proof (wf_joints Hwf) as Hall. rewrite Forall_forall in Hall.
  destruct (Hall joint Hin Hq) as (_ & _ & _ & Hnv & _).
  assert (Hi : In (idx_v joint) (flat_map tangent_range (joint :: js))).
  { apply in_flat_map. exists joint. split; [left; reflexivity|].
    apply in_py_range. lia. }
  rewrite Hnil in Hi. exact Hi.
Qed.

Lemma eligible_spec (model : Model) (joint : JointModel) :
  eligible model joint = true
  <-> (0 <= idx_q joint)%Z
      /\ forall k, In k (joint_coordinates joint) -> coordinate_has_limit model k = true.
Proof.
  unfold eligible. rewrite andb_true_iff, Z.leb_le, forallb_forall. reflexivity.
Qed.

(** On finite limits the test reads: upper below [1e20], and the
    interval wider than [1e-10]. *)
Lemma xlt_finite_limits (u l : Q) :
  xlt (Fin u) (Fin unbounded_threshold) && xlt (xadd (Fin l) min_width) (Fin u) = true
  <-> (u < unbounded_threshold /\ min_width < u - l)%Q.
Proof.
  simpl. unfold Qltb. rewrite andb_true_iff, !negb_true_iff.
  rewrite <- !not_true_iff_false, !Qle_bool_iff. split.
  - intros [H1 H2]. apply Qnot_le_lt in H1, H2. split; lra.
  - intros [H1 H2]. split; apply Qlt_not_le; lra.
Qed.

(** The object the constructor returns on a well-formed model. *)
Lemma init_returns (model : Model) :
  well_formed model ->
  let js := filter (eligible model) (joints model) in
  let idx := flat_map tangent_range js in
  Forall (fun i => (0 <= i < Z.of_nat (model_nv model))%Z) idx
  /\ (js = [] <-> idx = [])
  /\ __init__ model
     = Ok {| dim := length idx;
             indices := array_of_ints idx;
             bounded_joints := js;
             projection_matrix :=
               match idx with
               | [] => None
               | _ :: _ => Some (map (fun i => nth (Z.to_nat i) (eye (model_nv model)) []) idx)
               end;
             velocity_limit :=
               match js with
               | [] => None
               | _ :: _ => Some (map (fun i => nth (Z.to_nat i) (velocityLimit model) PosInf) idx)
               end;
             space_dim := model_nv model |}.
Proof.
  intros Hwf js idx.
  assert (Hfilter : filter (joint_is_bounded (has_configuration_limit model)) (joints model) = js).
  { apply filter_ext_in. intros joint Hin. now apply joint_is_bounded_eligible. }
  assert (Hjs : forall joint, In joint js -> In joint (joints model) /\ (0 <= idx_q joint)%Z).
  { intros joint Hin. apply filter_In in Hin. destruct Hin as [Hin He].
    apply eligible_spec in He. tauto. }
  pose proof (tangent_indices_in_range js Hwf Hjs) as Hrange.
  pose proof (tangent_indices_empty js Hwf Hjs) as Hempty.
  fold idx in Hrange, Hempty.
  split; [exact Hrange|]. split; [exact Hempty|].
  unfold __init__. rewrite Hfilter, collect_indices_flat_map. fold idx.
  change (idx_data (array_of_ints idx)) with idx.
  clearbody idx js. clear Hfilter Hjs.
  destruct idx as [|i idx'].
  - assert (Ejs : js = []) by (apply Hempty; reflexivity). subst js. reflexivity.
  - assert (Ejs : js <> []) by (intros E; apply Hempty in E; discriminate E).
    destruct js as [|j js']; [congruence|].
    change (0 <? length (i :: idx'))%nat with true.
    change (0 <? length (j :: js'))%nat with true. cbv iota.
    rewrite (@take_in_range _ (eye (model_nv model)) (i :: idx') []);
      [|discriminate|unfold eye; rewrite length_map, length_seq; exact Hrange].
    rewrite (@take_in_range _ (velocityLimit model) (i :: idx') PosInf);
      [|discriminate|rewrite (wf_velocity Hwf); exact Hrange].
    reflexivity.
Qed.

(** C3, as the code has it.  On a well-formed model the constructor
    returns.  It keeps, in their order, the joints whose configuration
    index is not negative and whose configuration coordinates all have
    an upper limit below [1e20] that exceeds the lower limit by more
    than [1e-10]; the index list is the concatenation of the kept joints'
    tangent ranges; the projection matrix has one unit row of the
    tangent space per index, and is [None] when there is no index, which
    is when no joint is kept; the velocity limits are the model's at
    those indices ([None] when no joint is kept). *)
Theorem init_bounded_tangent (model : Model) :
  well_formed model ->
  exists self : t,
    __init__ model = Ok self
    /\ bounded_joints self = filter (eligible model) (joints model)
    /\ (forall joint, In joint (bounded_joints self)
          <-> In joint (joints model) /\ (0 <= idx_q joint)%Z
              /\ forall k, In k (joint_coordinates joint) -> coordinate_has_limit model k = true)
    /\ indices self = array_of_ints (flat_map tangent_range (bounded_joints self))
    /\ dim self = length (idx_data (indices self))
    /\ space_dim self = model_nv model
    /\ (bounded_joints self = [] <-> idx_data (indices self) = [])
    /\ projection_matrix self
       = match idx_data (indices self) with
         | [] => None
         | _ :: _ => Some (map (fun i => unit_row (model_nv model) (Z.to_nat i))
                               (idx_data (indices self)))
         end
    /\ velocity_limit self
       = match bounded_joints self with
         | [] => None
         | _ :: _ => Some (map (fun i => nth (Z.to_nat i) (velocityLimit model) PosInf)
                               (idx_data (indices self)))
         end.
Proof.
  intros Hwf. destruct (init_returns Hwf) as (Hrange & Hempty & Hinit).
  eexists. split; [exact Hinit|].
  cbn [bounded_joints indices dim space_dim projection_matrix velocity_limit].
  change (idx_data (array_of_ints ?l)) with l.
  split; [reflexivity|]. split.
  { intros joint. rewrite filter_In, eligible_spec. tauto. }
  split; [reflexivity|]. split; [reflexivity|]. split; [reflexivity|].
  split; [exact Hempty|]. split; [|reflexivity].
  destruct (flat_map tangent_range (filter (eligible model) (joints model)))
    as [|i idx'] eqn:E; [reflexivity|].
  f_equal. apply map_ext_in. intros k Hk.
  rewrite Forall_forall in Hrange. apply nth_eye. specialize (Hrange k Hk). lia.
Qed.

(** A three-joint arm after the universe joint: a shoulder that moves
    within one radian, an elbow locked to a width of [1e-12], and a
    wrist that turns without limits. *)
Definition universe : JointModel := mk_joint (-1) 0 (-1) 0.
Definition shoulder : JointModel := mk_joint 0 1 0 1.
Definition elbow : JointModel := mk_joint 1 1 1 1.
Definition wrist : JointModel := mk_joint 2 1 2 1.

Definition arm : Model := {|
  joints := [universe; shoulder; elbow; wrist];
  model_nq := 3;
  model_nv := 3;
  upperPositionLimit := [Fin (1 # 2); Fin (1 # 1000000000000); PosInf];
  lowerPositionLimit := [Fin (- 1 # 2); Fin 0; NegInf];
  velocityLimit := [Fin 2; Fin 3; Fin 4]
|}.

(** A wheel that turns without limits. *)
Definition wheel : Model := {|
  joints := [universe; mk_joint 0 1 0 1];
  model_nq := 1;
  model_nv := 1;
  upperPositionLimit := [PosInf];
  lowerPositionLimit := [NegInf];
  velocityLimit := [Fin 10]
|}.

(** A crane whose hoist has a finite but very large upper limit. *)
Definition hoist : JointModel := mk_joint 0 1 0 1.

Definition crane : Model := {|
  joints := [universe; hoist];
  model_nq := 1;
  model_nv := 1;
  upperPositionLimit := [Fin ((10 ^ 21)%Z # 1)];
  lowerPositionLimit := [Fin 0];
  velocityLimit := [Fin 1]
|}.

(** The subspaces the constructor returns for the arm, the wheel and the
    crane. *)
Definition arm_subspace : t :=
  {| dim := 1;
     indices := {| idx_dtype := int64; idx_data := [0%Z] |};
     bounded_joints := [shoulder];
     projection_matrix := Some [[1; 0; 0]];
     velocity_limit := Some [Fin 2];
     space_dim := 3 |}.

Definition empty_subspace : t :=
  {| dim := 0;
     indices := {| idx_dtype := float64; idx_data := [] |};
     bounded_joints := [];
     projection_matrix := None;
     velocity_limit := None;
     space_dim := 1 |}.

Definition wheel_subspace : t := empty_subspace.
Definition crane_subspace : t := empty_subspace.

Lemma arm_well_formed : well_formed arm.
Proof.
  constructor; try reflexivity.
  apply Forall_forall. intros joint Hin. simpl in Hin.
  repeat (destruct Hin as [<-|Hin]; [simpl; lia|]). contradiction.
Qed.

Lemma wheel_well_formed : well_formed wheel.
Proof.
  constructor; try reflexivity.
  apply Forall_forall. intros joint Hin. simpl in Hin.
  repeat (destruct Hin as [<-|Hin]; [simpl; lia|]). contradiction.
Qed.

Example arm_bounded_tangent : __init__ arm = Ok arm_subspace.
Proof. vm_compute. reflexivity. Qed.

Example wheel_bounded_tangent : __init__ wheel = Ok wheel_subspace.
Proof. vm_compute. reflexivity. Qed.

Lemma init_bounded_tangent_witness :
  exists self : t,
    __init__ arm = Ok self
    /\ bounded_joints self = filter (eligible arm) (joints arm)
    /\ (forall joint, In joint (bounded_joints self)
          <-> In joint (joints arm) /\ (0 <= idx_q joint)%Z
              /\ forall k, In k (joint_coordinates joint) -> coordinate_has_limit arm k = true)
    /\ indices self = array_of_ints (flat_map tangent_range (bounded_joints self))
    /\ dim self = length (idx_data (indices self))
    /\ space_dim self = model_nv arm
    /\ (bounded_joints self = [] <-> idx_data (indices self) = [])
    /\ projection_matrix self
       = match idx_data (indices self) with
         | [] => None
         | _ :: _ => Some (map (fun i => unit_row (model_nv arm) (Z.to_nat i))
                               (idx_data (indices self)))
         end
    /\ velocity_limit self
       = match bounded_joints self with
         | [] => None
         | _ :: _ => Some (map (fun i => nth (Z.to_nat i) (velocityLimit arm) PosInf)
                               (idx_data (indices self)))
         end.
Proof.
  apply (@init_bounded_tangent arm).
  constructor; try reflexivity.
  apply Forall_forall. intros joint Hin. simpl in Hin.
  repeat (destruct Hin as [<-|Hin]; [simpl; lia|]). contradiction.
Defined.

(** C3 as stated fails in two places.  The universe joint of the arm
    has no configuration coordinate, so every one of them passes the
    test, and it is a joint of the model; the constructor leaves it out,
    because its configuration index is negative.  The hoist of the crane
    has a finite upper limit, [1e21], far above its lower limit; the
    constructor leaves it out, because that limit is not below [1e20]. *)
Lemma joints_left_out :
  (In universe (joints arm)
   /\ (forall k, In k (joint_coordinates universe) -> coordinate_has_limit arm k = true)
   /\ exists self : t,
        __init__ arm = Ok self
        /\ bounded_joints self = [shoulder]
        /\ ~ In universe (bounded_joints self))
  /\ (In hoist (joints crane)
      /\ joint_coordinates hoist = [0%nat]
      /\ nth 0 (upperPositionLimit crane) PosInf = Fin ((10 ^ 21)%Z # 1)
      /\ nth 0 (lowerPositionLimit crane) NegInf = Fin 0
      /\ (min_width < ((10 ^ 21)%Z # 1) - 0)%Q
      /\ exists self : t,
           __init__ crane = Ok self
           /\ bounded_joints self = []
           /\ ~ In hoist (bounded_joints self)).
Proof.
  split.
  - split; [left; reflexivity|]. split; [intros k []|].
    exists arm_subspace. split; [vm_compute; reflexivity|]. split; [reflexivity|].
    simpl. intros [H|[]]. discriminate H.
  - split; [right; left; reflexivity|]. split; [reflexivity|].
    split; [reflexivity|]. split; [reflexivity|]. split; [vm_compute; reflexivity|].
    exists crane_subspace. split; [vm_compute; reflexivity|]. split; [reflexivity|].
    simpl. intros [].
Qed.

(** X1.  [project] on a subspace with at least one index: the length
    check, then the gather in index order. *)
Lemma project_gathers {A : Type} (model : Model) (self : t) (v : list A) (d : A) :
  well_formed model -> __init__ model = Ok self -> idx_data (indices self) <> [] ->
  project self v
  = if (length v =? model_nv model)%nat
    then Ok (map (fun i => nth (Z.to_nat i) v d) (idx_data (indices self)))
    else Raise (AssertionError "Dimension mismatch").
Proof.
  intros Hwf Hinit Hne.
  destruct (init_returns Hwf) as (Hrange & _ & Hinit').
  rewrite Hinit in Hinit'. inversion Hinit'; subst self. clear Hinit'.
  unfold project. cbn [space_dim indices] in *.
  change (idx_data (array_of_ints ?l)) with l in *.
  destruct (Nat.eqb_spec (length v) (model_nv model)) as [Hlen|Hlen]; [|reflexivity].
  apply take_in_range; [exact Hne|]. rewrite Hlen. exact Hrange.
Qed.

Lemma project_gathers_witness :
  project arm_subspace [10; 20; 30]
  = if (length [10; 20; 30] =? model_nv arm)%nat
    then Ok (map (fun i => nth (Z.to_nat i) [10; 20; 30] 0) (idx_data (indices arm_subspace)))
    else Raise (AssertionError "Dimension mismatch").
Proof.
  apply (@project_gathers Q arm arm_subspace [10; 20; 30] 0).
  - constructor; try reflexivity.
    apply Forall_forall. intros joint Hin. simpl in Hin.
    repeat (destruct Hin as [<-|Hin]; [simpl; lia|]). contradiction.
  - vm_compute. reflexivity.
  - discriminate.
Defined.

(** The arm of the specification's test: of a joint that moves within
    one radian, a joint locked to a width of [1e-12] and a joint without
    limits, the constructor keeps the first; the index list is that
    joint's tangent range, and [project] returns that entry of a
    tangent vector. *)
Theorem arm_keeps_the_bounded_joint :
  exists self : t,
    __init__ arm = Ok self
    /\ bounded_joints self = [shoulder]
    /\ idx_data (indices self) = tangent_range shoulder
    /\ (forall x y z : Q, project self [x; y; z] = Ok [x])
    /\ (forall v : list Q, length v <> 3%nat ->
          project self v = Raise (AssertionError "Dimension mismatch")).
Proof.
  exists arm_subspace. split; [vm_compute; reflexivity|]. split; [reflexivity|].
  split; [reflexivity|]. split.
  - intros x y z. reflexivity.
  - intros v Hv. unfold project. simpl space_dim.
    apply Nat.eqb_neq in Hv. now rewrite Hv.
Qed.

(** C5 at a model without a bounded joint.  The wheel has tangent
    dimension 1 and no bounded joint; its index array is
    [np.array([])], an empty [float64] array, and [project] raises
    [IndexError] on every vector of the right length, [np.array([3.0])]
    among them, instead of returning the empty sub-vector.  (The
    constructor, which gathers with the same array, checks [dim > 0]
    and [len(joints) > 0] first.) *)
Theorem project_on_empty_subspace :
  exists self : t,
    __init__ wheel = Ok self
    /\ bounded_joints self = []
    /\ indices self = {| idx_dtype := float64; idx_data := [] |}
    /\ space_dim self = length [3%Q]
    /\ project self [3%Q] = Raise IndexError
    /\ (forall v : list Q, length v = space_dim self -> project self v = Raise IndexError)
    /\ (forall v : list Q, length v <> space_dim self ->
          project self v = Raise (AssertionError "Dimension mismatch")).
Proof.
  exists wheel_subspace. split; [vm_compute; reflexivity|].
  split; [reflexivity|]. split; [reflexivity|]. split; [reflexivity|].
  split; [reflexivity|]. split.
  - intros v Hv. unfold project. rewrite Hv, Nat.eqb_refl. reflexivity.
  - intros v Hv. unfold project. apply Nat.eqb_neq in Hv. now rewrite Hv.
Qed.

End BoundedTangentClaims.



(** * [DampingTask.compute_error] *)

Module DampingTaskClaims.

Import DampingTask.

Section WithUtils.

Variable get_root_joint_dim : Model -> Z * Z.

(** C9.  Whenever the root joint has no more tangent coordinates than
    the model, [compute_error] returns a vector of zeros with as many
    entries as the model's tangent space has beyond the root joint's. *)
Theorem compute_error_is_zero (configuration : Configuration) :
  let nv_total := Z.of_nat (model_nv (model configuration)) in
  let root_nv := snd (get_root_joint_dim (model configuration)) in
  (root_nv <= nv_total)%Z ->
  exists e : vec,
    compute_error get_root_joint_dim configuration = Ok e
    /\ Z.of_nat (length e) = (nv_total - root_nv)%Z
    /\ Forall (fun x => x = 0%Q) e.
Proof.
  intros nv_total root_nv Hle. unfold compute_error.
  fold nv_total. destruct (get_root_joint_dim (model configuration)) as [root_nq r] eqn:E.
  simpl in root_nv. unfold zeros.
  replace (nv_total - r <? 0)%Z with false by (symmetry; apply Z.ltb_ge; unfold root_nv in Hle; lia).
  eexists. split; [reflexivity|]. split.
  - rewrite repeat_length. unfold root_nv in *. lia.
  - apply Forall_forall. intros x Hx. apply repeat_spec in Hx. exact Hx.
Qed.

End WithUtils.

(** A floating-base robot with two actuated joints: the root joint is a
    free flyer, seven configuration and six tangent coordinates. *)
Definition floating_base : Model := {|
  joints := [mk_joint (-1) 0 (-1) 0; mk_joint 0 7 0 6; mk_joint 7 1 6 1; mk_joint 8 1 7 1];
  model_nq := 9;
  model_nv := 8;
  upperPositionLimit := repeat PosInf 7 ++ [Fin 1; Fin 1];
  lowerPositionLimit := repeat NegInf 7 ++ [Fin (- 1 # 1); Fin (- 1 # 1)];
  velocityLimit := repeat PosInf 6 ++ [Fin 5; Fin 5]
|}.

(** The root joint read off the joint list: the first joint after the
    universe. *)
Definition root_joint_dim (m : Model) : Z * Z :=
  match joints m with
  | _ :: root :: _ => (nq root, nv root)
  | _ => (0%Z, 0%Z)
  end.

Lemma compute_error_is_zero_witness :
  exists e : vec,
    compute_error root_joint_dim (mk_configuration floating_base (repeat 0%Q 9)) = Ok e
    /\ Z.of_nat (length e) = (8 - 6)%Z
    /\ Forall (fun x => x = 0%Q) e.
Proof.
  apply (@compute_error_is_zero root_joint_dim (mk_configuration floating_base (repeat 0%Q 9))).
  simpl. lia.
Defined.

Example floating_base_damping_error :
  compute_error root_joint_dim (mk_configuration floating_base (repeat 0%Q 9)) = Ok [0%Q; 0%Q].
Proof. reflexivity. Qed.

End DampingTaskClaims.

(** * [PositionCBF]: what the barrier computes *)

(** A gantry: three prismatic joints move the frame ["tool"] along the
    world axes. *)
Module Gantry.

Local Open Scope R_scope.

Definition position : Type := (R * R * R)%type.

Definition translation (c : position) : list R := let '(x, y, z) := c in [x; y; z].

Definition jacobian : list (list R) :=
  [[1; 0; 0]; [0; 1; 0]; [0; 0; 1]; [0; 0; 0]; [0; 0; 0]; [0; 0; 0]].

Lemma translation_has_length (c : position) (f : string) : length (translation c) = 3%nat.
Proof. destruct c as [[x y] z]. reflexivity. Qed.

Lemma jacobian_has_rows (c : position) (f : string) : length jacobian = 6%nat.
Proof. reflexivity. Qed.

Lemma jacobian_has_cols (c : position) (f : string) :
  Forall (fun row : list R => length row = 3%nat) jacobian.
Proof. repeat constructor. Qed.

#[export] Instance kinematics : FrameKinematics := {|
  FrameConfiguration := position;
  frame_nv := fun _ => 3%nat;
  get_transform_frame_to_world_translation := fun c _ => translation c;
  get_frame_jacobian := fun _ _ => jacobian;
  translation_length := translation_has_length;
  frame_jacobian_rows := jacobian_has_rows;
  frame_jacobian_cols := jacobian_has_cols
|}.

Definition at_position (x y z : R) : @FrameConfiguration kinematics := (x, y, z).

End Gantry.

Module PositionCBFFacts.

Import PositionCBF.
Local Open Scope R_scope.

Section WithConfiguration.

Context {F : FrameKinematics}.

(** A barrier that was only constructed has no [frame] to read. *)
Lemma constructed_has_no_frame (frame_arg : string) (mask_arg : option (list bool))
    (min max : option rvec) (gain_arg : R) (configuration : FrameConfiguration) :
  compute_barrier (__init__ frame_arg mask_arg min max gain_arg) configuration
  = Raise (AttributeError "frame")
  /\ compute_jacobian (__init__ frame_arg mask_arg min max gain_arg) configuration
     = Raise (AttributeError "frame").
Proof. split; reflexivity. Qed.

(** Once a caller has assigned [frame]: both sides are always computed,
    so a side that is not set is a [TypeError]. *)
Lemma compute_barrier_unset_side (self : t) (name : string) (configuration : FrameConfiguration) :
  frame self = Some name ->
  (p_min self = None -> compute_barrier self configuration = Raise TypeError)
  /\ (forall lo, p_min self = Some lo -> length lo = 3%nat -> p_max self = None ->
      compute_barrier self configuration = Raise TypeError).
Proof.
  intros Hf. unfold compute_barrier, get_frame. rewrite Hf.
  cbn [bind builtin_is_not_None app]. split.
  - intros ->. reflexivity.
  - intros lo -> Hlo ->. cbn [np_sub].
    rewrite translation_length, Hlo. reflexivity.
Qed.

Lemma compute_barrier_both_sides (self : t) (name : string) (configuration : FrameConfiguration)
    (lo hi : rvec) :
  frame self = Some name -> p_min self = Some lo -> p_max self = Some hi ->
  length lo = 3%nat -> length hi = 3%nat ->
  let pos_world := get_transform_frame_to_world_translation configuration name in
  compute_barrier self configuration
  = Ok (zip_with Rminus pos_world lo ++ zip_with Rminus hi pos_world).
Proof.
  intros Hf Hlo Hhi Llo Lhi pos_world.
  assert (Hpos : length pos_world = 3%nat) by apply translation_length.
  unfold compute_barrier, get_frame. rewrite Hf, Hlo, Hhi.
  cbn [bind builtin_is_not_None np_sub app]. fold pos_world.
  rewrite Hpos, Llo, Lhi. simpl. now rewrite app_nil_r.
Qed.

(** The Jacobian joins the position Jacobian and its negation side by
    side, whatever bounds are set: three rows over twice the tangent
    space. *)
Lemma compute_jacobian_with_frame (self : t) (name : string) (configuration : FrameConfiguration) :
  frame self = Some name ->
  let pos_jac := firstn 3 (get_frame_jacobian configuration name) in
  compute_jacobian self configuration
  = Ok (map (fun i => nth i pos_jac [] ++ map Ropp (nth i pos_jac [])) (seq 0 3))
  /\ Forall (fun row => length row = (2 * frame_nv configuration)%nat)
            (map (fun i => nth i pos_jac [] ++ map Ropp (nth i pos_jac [])) (seq 0 3)).
Proof.
  intros Hf pos_jac.
  assert (Hlen : length pos_jac = 3%nat).
  { unfold pos_jac. rewrite length_firstn, frame_jacobian_rows. reflexivity. }
  split.
  - unfold compute_jacobian, get_frame. rewrite Hf.
    cbn [bind builtin_is_not_None app]. fold pos_jac.
    unfold np_hstack. cbn [forallb]. rewrite length_map, Hlen. cbn [Nat.eqb andb].
    f_equal. apply map_ext. intros i. cbn [map concat].
    rewrite app_nil_r. f_equal. apply (map_nth (map Ropp) pos_jac []).
  - apply Forall_forall. intros row Hrow. apply in_map_iff in Hrow.
    destruct Hrow as [i [<- Hi]]. apply in_seq in Hi.
    rewrite length_app, length_map.
    assert (Hrowlen : length (nth i pos_jac []) = frame_nv configuration).
    { pose proof (frame_jacobian_cols configuration name) as Hall.
      rewrite Forall_forall in Hall. apply Hall.
      rewrite <- (firstn_skipn 3 (get_frame_jacobian configuration name)).
      apply in_or_app. left. apply nth_In. fold pos_jac. lia. }
    lia.
Qed.

End WithConfiguration.

(** The default comparison function. *)
Lemma norm_nonneg (h : rvec) : 0 <= norm h.
Proof. apply sqrt_pos. Qed.

Lemma norm_zeros (m : nat) : norm (repeat 0 m) = 0.
Proof.
  unfold norm.
  assert (E : fold_right (fun x acc => x * x + acc) 0 (repeat 0 m) = 0).
  { induction m as [|m IH]; simpl; [reflexivity | rewrite IH; ring]. }
  rewrite E. apply sqrt_0.
Qed.


Lemma norm_unit_x : norm [1; 0; 0] = 1.
Proof.
  unfold norm. simpl.
  replace (1 * 1 + (0 * 0 + (0 * 0 + 0))) with 1 by ring. apply sqrt_1.
Qed.

Lemma class_k_bounds (h : rvec) : 0 < 1 / (1 + norm h) <= 1.
Proof.
  pose proof (norm_nonneg h) as Hn.
  assert (Hpos : 0 < 1 + norm h) by lra.
  unfold Rdiv. rewrite Rmult_1_l. split.
  - apply Rinv_0_lt_compat. exact Hpos.
  - rewrite <- Rinv_1 at 2. apply Rinv_le_contravar; lra.
Qed.

Lemma class_k_antitone (u v : rvec) :
  norm u <= norm v -> 1 / (1 + norm v) <= 1 / (1 + norm u).
Proof.
  intros Huv. pose proof (norm_nonneg u) as Hu.
  unfold Rdiv. rewrite !Rmult_1_l. apply Rinv_le_contravar; lra.
Qed.

End PositionCBFFacts.

Module PositionCBFClaims.

Import PositionCBF PositionCBFFacts.
Local Open Scope R_scope.

(** C2 at a barrier with the lower bound alone, and at one with both
    bounds, for the gantry at [(1, 2, 3)].  As constructed, the barrier
    cannot be evaluated: [frame] is never assigned.  With [frame]
    assigned by the caller: the barrier with the lower bound alone,
    whose [dim] is 3, raises [TypeError] since the upper side is
    computed too; with both bounds the barrier is
    [p_world - p_min ; p_max - p_world], a mask changes nothing, and the
    Jacobian has three rows over six columns, the position Jacobian and
    its negation side by side, in place of six rows over three. *)
Theorem position_barrier_as_written :
  let lower_only := __init__ "tool" None (Some [0; 0; 0]) None 1 in
  let both := __init__ "tool" None (Some [0; 0; 0]) (Some [5; 5; 5]) 1 in
  let masked := __init__ "tool" (Some [true; false; true]) (Some [0; 0; 0]) (Some [5; 5; 5]) 1 in
  let configuration := Gantry.at_position 1 2 3 in
  dim lower_only = 3%nat /\ dim both = 6%nat /\ dim masked = 6%nat
  /\ compute_barrier lower_only configuration = Raise (AttributeError "frame")
  /\ compute_jacobian lower_only configuration = Raise (AttributeError "frame")
  /\ compute_barrier (with_frame lower_only "tool") configuration = Raise TypeError
  /\ compute_jacobian (with_frame lower_only "tool") configuration
     = Ok [[1; 0; 0; Ropp 1; Ropp 0; Ropp 0];
           [0; 1; 0; Ropp 0; Ropp 1; Ropp 0];
           [0; 0; 1; Ropp 0; Ropp 0; Ropp 1]]
  /\ compute_barrier (with_frame both "tool") configuration
     = Ok [1 - 0; 2 - 0; 3 - 0; 5 - 1; 5 - 2; 5 - 3]
  /\ compute_barrier (with_frame masked "tool") configuration
     = compute_barrier (with_frame both "tool") configuration
  /\ compute_jacobian (with_frame both "tool") configuration
     = compute_jacobian (with_frame lower_only "tool") configuration.
Proof.
  intros lower_only both masked configuration.
  split; [reflexivity|]. split; [reflexivity|]. split; [reflexivity|].
  split; [apply constructed_has_no_frame|]. split; [apply constructed_has_no_frame|].
  split.
  { destruct (compute_barrier_unset_side (with_frame lower_only "tool") configuration eq_refl)
      as [_ Hside].
    apply (Hside [0; 0; 0]); reflexivity. }
  repeat split; reflexivity.
Qed.

(** The contract the specification gives a class-K function, on the
    margins of the safe set. *)
Definition vanishes_at_zero (alpha : rvec -> R) : Prop :=
  forall m : nat, alpha (repeat 0 m) = 0.

Definition increasing (alpha : rvec -> R) : Prop :=
  forall u v : rvec, Forall (fun x => 0 <= x) u -> Forall2 Rle u v -> alpha u <= alpha v.

(** C7, as the code has it.  Whatever the constructor receives, the
    comparison function a position barrier stores is
    [alpha h = 1 / (1 + |h|)].  It takes the value 1 at a zero margin,
    lies in (0, 1], and does not increase when the norm of the margin
    grows. *)
Theorem default_class_k_fn (frame_arg : string) (mask_arg : option (list bool))
    (min max : option rvec) (gain_arg : R) :
  let alpha := class_k_fn (__init__ frame_arg mask_arg min max gain_arg) in
  (forall h, alpha h = 1 / (1 + norm h))
  /\ (forall m, alpha (repeat 0 m) = 1)
  /\ (forall h, 0 < alpha h <= 1)
  /\ (forall u v, norm u <= norm v -> alpha v <= alpha u).
Proof.
  intros alpha. unfold alpha. cbn [class_k_fn __init__].
  split; [reflexivity|]. split.
  - intros m. rewrite norm_zeros. field.
  - split; [apply class_k_bounds | apply class_k_antitone].
Qed.

(** C7 as stated fails: the default function is 1 at a zero margin and
    one half at a margin of one metre along x. *)
Lemma default_class_k_fn_is_not_class_K :
  let alpha := class_k_fn (__init__ "tool" None (Some [0; 0; 0]) (Some [1; 1; 1]) 1) in
  alpha [0; 0; 0] = 1
  /\ alpha [1; 0; 0] = 1 / 2
  /\ ~ vanishes_at_zero alpha
  /\ ~ increasing alpha.
Proof.
  intros alpha.
  assert (H0 : alpha [0; 0; 0] = 1).
  { unfold alpha. cbn [class_k_fn __init__].
    change [0; 0; 0] with (repeat 0 3). rewrite norm_zeros. field. }
  assert (H1 : alpha [1; 0; 0] = 1 / 2).
  { unfold alpha. cbn [class_k_fn __init__]. rewrite norm_unit_x. field. }
  split; [exact H0|]. split; [exact H1|]. split.
  - intros Hz. specialize (Hz 3%nat). simpl in Hz. rewrite H0 in Hz. lra.
  - intros Hinc. specialize (Hinc [0; 0; 0] [1; 0; 0]).
    rewrite H0, H1 in Hinc.
    assert (1 <= 1 / 2); [|lra].
    apply Hinc; repeat constructor; lra.
Qed.

End PositionCBFClaims.

(** * [BodyTask]: the cost setters, the constructor and the target *)

Module BodyTaskSetters.

Import NpFacts BodyTask BodyTaskFacts BodyTaskState QpHessian.
Local Open Scope Q_scope.

(** The three entries a cost argument writes into its slice: a float
    and a one-entry sequence are repeated, a three-entry sequence is
    copied. *)
Definition spread (c : cost_input) : vec :=
  match c with
  | CostFloat x => [x; x; x]
  | CostSeq [x] => [x; x; x]
  | CostSeq l => l
  end.

Lemma in_firstn {A : Type} (n : nat) (l : list A) (x : A) : In x (firstn n l) -> In x l.
Proof. intros H. rewrite <- (firstn_skipn n l). apply in_or_app. left. exact H. Qed.

Lemma in_skipn {A : Type} (n : nat) (l : list A) (x : A) : In x (skipn n l) -> In x l.
Proof. intros H. rewrite <- (firstn_skipn n l). apply in_or_app. right. exact H. Qed.

Lemma spread_three (c : cost_input) :
  valid_cost c -> exists x y z, spread c = [x; y; z] /\ 0 <= x /\ 0 <= y /\ 0 <= z.
Proof.
  destruct c as [x|l]; simpl.
  - intros Hx. exists x, x, x. auto.
  - intros [Hl [Hlen|Hlen]]; destruct l as [|x [|y [|z [|w l]]]]; simpl in Hlen;
      try discriminate.
    + exists x, y, z. inversion Hl as [|? ? Hx Hl1]; subst.
      inversion Hl1 as [|? ? Hy Hl2]; subst. inversion Hl2; subst. auto.
    + exists x, x, x. inversion Hl; subst. auto.
Qed.

Lemma assign_slice3_spread (a : vec) (start : nat) (c : cost_input) :
  valid_cost c ->
  assign_slice3 a start c = Ok (firstn start a ++ spread c ++ skipn (start + 3) a).
Proof.
  destruct c as [x|l]; simpl; [reflexivity|].
  intros [_ [Hlen|Hlen]]; destruct l as [|x [|y [|z [|w l]]]]; simpl in Hlen;
    try discriminate; reflexivity.
Qed.

Section WithProvider.

Context {K : Kinematics}.

Lemma cost_setter_spread (start : nat) (c : cost_input) (self : t) :
  valid_cost c ->
  cost_setter start c self
  = (Ok tt, with_cost self (firstn start (cost self) ++ spread c
                            ++ skipn (start + 3) (cost self))).
Proof.
  intros Hc. unfold cost_setter.
  rewrite (check_cost_valid c Hc). rewrite assign_slice3_spread by exact Hc. reflexivity.
Qed.

(** X5.  On a task with its six costs and on arguments the setters
    accept, [set_position_cost] writes entries 0-2 and keeps entries
    3-5, [set_orientation_cost] writes entries 3-5 and keeps entries
    0-2; the two commute; and the constructor returns the task whose
    cost is the position entries followed by the orientation entries,
    with a zero cached error and no target. *)
Theorem setters_write_their_slice (self : t) (p o : cost_input) :
  length (cost self) = 6%nat -> valid_cost p -> valid_cost o ->
  set_position_cost p self = (Ok tt, with_cost self (spread p ++ skipn 3 (cost self)))
  /\ set_orientation_cost o self = (Ok tt, with_cost self (firstn 3 (cost self) ++ spread o))
  /\ snd (set_orientation_cost o (snd (set_position_cost p self)))
     = snd (set_position_cost p (snd (set_orientation_cost o self)))
  /\ cost (snd (set_orientation_cost o (snd (set_position_cost p self)))) = spread p ++ spread o
  /\ forall (Task_gain : Q) (b : string) (lm : Q),
       __init__ Task_gain b p o lm
       = Ok (mk b (spread p ++ spread o) (repeat 0 6) lm None Task_gain).
Proof.
  intros Hlen Hp Ho.
  destruct (spread_three p Hp) as (p1 & p2 & p3 & Ep & _).
  destruct (spread_three o Ho) as (o1 & o2 & o3 & Eo & _).
  assert (Hpos : forall s : t, set_position_cost p s
            = (Ok tt, with_cost s (spread p ++ skipn 3 (cost s)))).
  { intros s. rewrite set_position_cost_unfold. rewrite cost_setter_spread by exact Hp.
    reflexivity. }
  assert (Hori : forall s : t, length (cost s) = 6%nat ->
            set_orientation_cost o s = (Ok tt, with_cost s (firstn 3 (cost s) ++ spread o))).
  { intros s Hs. rewrite set_orientation_cost_unfold. rewrite cost_setter_spread by exact Ho.
    replace (skipn (3 + 3) (cost s)) with (@nil Q)
      by (symmetry; apply skipn_all2; rewrite Hs; simpl; lia).
    now rewrite app_nil_r. }
  assert (Hlen1 : length (cost (with_cost self (spread p ++ skipn 3 (cost self)))) = 6%nat).
  { cbn [cost with_cost]. rewrite length_app, length_skipn, Ep, Hlen. reflexivity. }
  split; [apply Hpos|]. split; [apply Hori; exact Hlen|].
  rewrite (Hori self Hlen), !Hpos. cbn [snd]. rewrite (Hori _ Hlen1).
  cbn [snd with_cost cost body error_in_body lm_damping transform_target_to_world gain].
  assert (Hcost : firstn 3 (spread p ++ skipn 3 (cost self)) ++ spread o = spread p ++ spread o).
  { rewrite Ep. reflexivity. }
  assert (Hcost' : spread p ++ skipn 3 (firstn 3 (cost self) ++ spread o) = spread p ++ spread o).
  { f_equal. destruct (cost self) as [|a0 [|a1 [|a2 [|a3 [|a4 [|a5 [|a6 a]]]]]]];
      simpl in Hlen; try discriminate. reflexivity. }
  rewrite Hcost, Hcost'. split; [reflexivity|]. split; [reflexivity|].
  intros Task_gain b lm. unfold __init__, mbind.
  rewrite Hpos. rewrite Hori by (cbn [cost with_cost]; rewrite Ep; reflexivity).
  cbn [with_cost cost body error_in_body lm_damping transform_target_to_world gain].
  rewrite Ep. reflexivity.
Qed.

(** A setter keeps the costs non-negative. *)
Lemma cost_setter_nonneg (start : nat) (c : cost_input) (self : t) :
  Forall (fun x => 0 <= x) (cost self) ->
  Forall (fun x => 0 <= x) (cost (snd (cost_setter start c self))).
Proof.
  intros Ha. unfold cost_setter.
  destruct (check_cost c) as [u|e] eqn:Echeck; [|exact Ha].
  destruct (assign_slice3 (cost self) start c) as [a'|e] eqn:Eassign; [|exact Ha].
  cbn [snd with_cost cost].
  assert (G : forall x y z : Q, 0 <= x -> 0 <= y -> 0 <= z ->
            Forall (fun v => 0 <= v)
              (firstn start (cost self) ++ [x; y; z] ++ skipn (start + 3) (cost self))).
  { intros x y z Hx Hy Hz. rewrite Forall_forall in *. intros v Hv.
    apply in_app_or in Hv. destruct Hv as [Hv|Hv]; [apply Ha; eapply in_firstn; eassumption|].
    apply in_app_or in Hv. destruct Hv as [Hv|Hv]; [|apply Ha; eapply in_skipn; eassumption].
    simpl in Hv. destruct Hv as [<-|[<-|[<-|[]]]]; assumption. }
  destruct c as [x|l]; simpl in Echeck, Eassign; unfold py_assert in Echeck.
  - destruct (Qle_bool 0 x) eqn:Ex; [|discriminate]. apply Qle_bool_iff in Ex.
    inversion Eassign; subst. apply G; exact Ex.
  - destruct (forallb (Qle_bool 0) l) eqn:El; [|discriminate].
    rewrite forallb_forall in El.
    assert (Hin : forall v, In v l -> 0 <= v) by (intros v Hv; apply Qle_bool_iff, El, Hv).
    destruct l as [|x [|y [|z [|w l]]]]; simpl in Eassign; try discriminate;
      inversion Eassign; subst; apply G; apply Hin; simpl; auto.
Qed.

Lemma perform_cost_nonneg (self : t) (c : call) :
  Forall (fun x => 0 <= x) (cost self) ->
  Forall (fun x => 0 <= x) (cost (perform self c)).
Proof.
  intros Ha. destruct c as [x|x|T|robot|robot|robot]; simpl.
  - rewrite set_position_cost_unfold. apply cost_setter_nonneg. exact Ha.
  - rewrite set_orientation_cost_unfold. apply cost_setter_nonneg. exact Ha.
  - exact Ha.
  - destruct (compute_error_in_body_keeps self robot) as (_ & C & _). rewrite C. exact Ha.
  - rewrite compute_task_dynamics_state.
    destruct (compute_error_in_body_keeps self robot) as (_ & C & _). rewrite C. exact Ha.
  - rewrite compute_qp_objective_state.
    destruct (compute_error_in_body_keeps self robot) as (_ & C & _). rewrite C. exact Ha.
Qed.

(** X6.  A task that the constructor returned has six cost entries,
    none of them negative, and keeps both through any calls, failed
    ones included. *)
Theorem cost_stays_nonnegative (Task_gain : Q) (b : string)
    (position_cost orientation_cost : cost_input) (lm : Q) (self0 : t) (calls : list call) :
  __init__ Task_gain b position_cost orientation_cost lm = Ok self0 ->
  length (cost (perform_all self0 calls)) = 6%nat
  /\ Forall (fun x => 0 <= x) (cost (perform_all self0 calls)).
Proof.
  intros Hinit.
  assert (H0 : Forall (fun x => 0 <= x) (cost self0)).
  { revert Hinit. unfold __init__, mbind.
    rewrite set_position_cost_unfold.
    set (s0 := mk b (ones 6) (repeat 0 6) lm None Task_gain).
    assert (Hs0 : Forall (fun x => 0 <= x) (cost s0)) by (repeat constructor; lra).
    pose proof (cost_setter_nonneg 0 position_cost s0 Hs0) as H1.
    destruct (cost_setter 0 position_cost s0) as [[u|e] s1]; [|discriminate].
    rewrite set_orientation_cost_unfold.
    pose proof (cost_setter_nonneg 3 orientation_cost s1 H1) as H2.
    destruct (cost_setter 3 orientation_cost s1) as [[u'|e] s2]; [|discriminate].
    intros E. inversion E; subst. exact H2. }
  destruct (@init_fields _ _ _ _ _ _ _ Hinit) as (_ & _ & _ & _ & _ & Hlen).
  split.
  - destruct (perform_all_keeps calls self0) as (_ & _ & _ & C & _). apply C. exact Hlen.
  - clear Hinit Hlen. revert self0 H0.
    induction calls as [|c calls IH]; intros self0 H0; simpl; [exact H0|].
    apply IH. apply perform_cost_nonneg. exact H0.
Qed.

(** X7.  A sequence without a negative entry whose length is neither 1
    nor 3 passes the assertion and fails in the slice assignment with
    [ValueError]; the task is left as it was, and no task is constructed
    from such a position cost. *)
Theorem setters_reject_wrong_length (self : t) (l : list Q) :
  Forall (fun x => 0 <= x) l -> length l <> 1%nat -> length l <> 3%nat ->
  set_position_cost (CostSeq l) self = (Raise ValueError, self)
  /\ set_orientation_cost (CostSeq l) self = (Raise ValueError, self)
  /\ forall (Task_gain : Q) (b : string) (other : cost_input) (lm : Q),
       __init__ Task_gain b (CostSeq l) other lm = Raise ValueError.
Proof.
  intros Hl H1 H3.
  assert (Hcheck : check_cost (CostSeq l) = Ok tt).
  { simpl. unfold py_assert. replace (forallb (Qle_bool 0) l) with true; [reflexivity|].
    symmetry. apply forallb_forall. intros x Hx. apply Qle_bool_iff.
    rewrite Forall_forall in Hl. now apply Hl. }
  assert (Hassign : forall a start, assign_slice3 a start (CostSeq l) = Raise ValueError).
  { intros a start. destruct l as [|x [|y [|z [|w l]]]]; simpl in *; try reflexivity;
      congruence. }
  assert (Hset : forall start s, cost_setter start (CostSeq l) s = (Raise ValueError, s)).
  { intros start s. unfold cost_setter. now rewrite Hcheck, Hassign. }
  rewrite set_position_cost_unfold, set_orientation_cost_unfold, !Hset.
  repeat split. intros Task_gain b other lm. unfold __init__, mbind.
  now rewrite set_position_cost_unfold, Hset.
Qed.

(** X8.  The target persists: after [set_target T] and any further
    calls that are not [set_target], [compute_error_in_body] returns the
    negated box-minus of [T] and the current body pose, and caches it;
    a later [set_target T'] replaces [T]. *)
Theorem target_persists (self0 : t) (T : SE3) (calls : list call) (robot : ConfiguredRobot) :
  forallb (fun c => negb (is_set_target c)) calls = true ->
  let self := perform_all (snd (set_target T self0)) calls in
  let pose := get_transform_body_to_world robot (body self0) in
  compute_error_in_body robot self
  = (Ok (vneg (body_box_minus T pose)),
     with_error_in_body self (vneg (body_box_minus T pose)))
  /\ forall T' : SE3,
       fst (compute_error_in_body robot (snd (set_target T' self)))
       = Ok (vneg (body_box_minus T' pose)).
Proof.
  intros Hcalls self pose.
  destruct (perform_all_keeps calls (snd (set_target T self0))) as (B & _ & _ & _ & Tk & _).
  fold self in B, Tk.
  assert (Hbody : body self = body self0) by (rewrite B; reflexivity).
  assert (Htarget : transform_target_to_world self = Some T) by (rewrite (Tk Hcalls); reflexivity).
  split.
  - rewrite (compute_error_in_body_set self robot Htarget).
    unfold error_of, pose. rewrite Hbody. reflexivity.
  - intros T'.
    assert (Htarget' : transform_target_to_world (snd (set_target T' self)) = Some T')
      by reflexivity.
    rewrite (compute_error_in_body_set _ robot Htarget').
    unfold error_of, pose. cbn [fst]. simpl body. rewrite Hbody. reflexivity.
Qed.

End WithProvider.

Lemma setters_write_their_slice_witness :
  set_position_cost (CostSeq [2; 3; 4]) (Slider.task (1 # 1000000))
  = (Ok tt, with_cost (Slider.task (1 # 1000000))
              (spread (CostSeq [2; 3; 4]) ++ skipn 3 (cost (Slider.task (1 # 1000000)))))
  /\ set_orientation_cost (CostFloat 0) (Slider.task (1 # 1000000))
     = (Ok tt, with_cost (Slider.task (1 # 1000000))
                 (firstn 3 (cost (Slider.task (1 # 1000000))) ++ spread (CostFloat 0)))
  /\ snd (set_orientation_cost (CostFloat 0)
            (snd (set_position_cost (CostSeq [2; 3; 4]) (Slider.task (1 # 1000000)))))
     = snd (set_position_cost (CostSeq [2; 3; 4])
              (snd (set_orientation_cost (CostFloat 0) (Slider.task (1 # 1000000)))))
  /\ cost (snd (set_orientation_cost (CostFloat 0)
                  (snd (set_position_cost (CostSeq [2; 3; 4]) (Slider.task (1 # 1000000))))))
     = spread (CostSeq [2; 3; 4]) ++ spread (CostFloat 0)
  /\ forall (Task_gain : Q) (b : string) (lm : Q),
       __init__ (K := Slider.kinematics) Task_gain b (CostSeq [2; 3; 4]) (CostFloat 0) lm
       = Ok (mk b (spread (CostSeq [2; 3; 4]) ++ spread (CostFloat 0)) (repeat 0 6) lm None
               Task_gain).
Proof.
  apply (@setters_write_their_slice Slider.kinematics (Slider.task (1 # 1000000))
           (CostSeq [2; 3; 4]) (CostFloat 0)).
  - reflexivity.
  - simpl. split; [repeat constructor; lra | left; reflexivity].
  - simpl. lra.
Defined.

Lemma cost_stays_nonnegative_witness :
  length (cost (perform_all (Slider.new_task (1 # 1000000))
                  [SetPositionCost (CostSeq [2; 3; 4]); SetOrientationCost (CostFloat (- (1)));
                   SetTarget (Slider.target_at 1); ComputeQpObjective (Slider.at_position 0)]))
  = 6%nat
  /\ Forall (fun x => 0 <= x)
       (cost (perform_all (Slider.new_task (1 # 1000000))
                [SetPositionCost (CostSeq [2; 3; 4]); SetOrientationCost (CostFloat (- (1)));
                 SetTarget (Slider.target_at 1); ComputeQpObjective (Slider.at_position 0)])).
Proof.
  exact (@cost_stays_nonnegative Slider.kinematics 1 "slider" (CostFloat 1) (CostFloat 1)
           (1 # 1000000) (Slider.new_task (1 # 1000000))
           [SetPositionCost (CostSeq [2; 3; 4]); SetOrientationCost (CostFloat (- (1)));
            SetTarget (Slider.target_at 1); ComputeQpObjective (Slider.at_position 0)]
           eq_refl).
Defined.

Lemma setters_reject_wrong_length_witness :
  set_position_cost (CostSeq [1; 2]) (Slider.task (1 # 1000000))
  = (Raise ValueError, Slider.task (1 # 1000000))
  /\ set_orientation_cost (CostSeq [1; 2]) (Slider.task (1 # 1000000))
     = (Raise ValueError, Slider.task (1 # 1000000))
  /\ forall (Task_gain : Q) (b : string) (other : cost_input) (lm : Q),
       __init__ (K := Slider.kinematics) Task_gain b (CostSeq [1; 2]) other lm
       = Raise ValueError.
Proof.
  apply (@setters_reject_wrong_length Slider.kinematics (Slider.task (1 # 1000000)) [1; 2]).
  - repeat constructor; lra.
  - simpl. lia.
  - simpl. lia.
Defined.

Lemma target_persists_witness :
  let self := perform_all (snd (set_target (Slider.target_at 2) (Slider.new_task (1 # 1000000))))
                [SetPositionCost (CostFloat 3); ComputeErrorInBody (Slider.at_position 0)] in
  let pose := get_transform_body_to_world (Slider.at_position (1 # 2)) "slider" in
  compute_error_in_body (Slider.at_position (1 # 2)) self
  = (Ok (vneg (body_box_minus (Slider.target_at 2) pose)),
     with_error_in_body self (vneg (body_box_minus (Slider.target_at 2) pose)))
  /\ forall T' : @SE3 Slider.kinematics,
       fst (compute_error_in_body (Slider.at_position (1 # 2)) (snd (set_target T' self)))
       = Ok (vneg (body_box_minus T' pose)).
Proof.
  exact (@target_persists Slider.kinematics (Slider.new_task (1 # 1000000)) (Slider.target_at 2)
           [SetPositionCost (CostFloat 3); ComputeErrorInBody (Slider.at_position 0)]
           (Slider.at_position (1 # 2)) eq_refl).
Defined.

End BodyTaskSetters.

(** * [BodyTask.compute_qp_objective]: what the objective means *)

Module QpMeaning.

Import NpFacts QpFacts PsdFacts BodyTask BodyTaskFacts QpObjective.
Local Open Scope Q_scope.

Lemma Forall2_sym_rel {A : Type} (R : A -> A -> Prop) (l l' : list A) :
  (forall x y, R x y -> R y x) -> Forall2 R l l' -> Forall2 R l' l.
Proof. intros Hsym H. induction H; constructor; auto. Qed.

Lemma Forall2_trans_rel {A : Type} (R : A -> A -> Prop) (l1 l2 l3 : list A) :
  (forall x y z, R x y -> R y z -> R x z) ->
  Forall2 R l1 l2 -> Forall2 R l2 l3 -> Forall2 R l1 l3.
Proof.
  intros Htrans H. revert l3. induction H; intros l3 H3; inversion H3; subst; constructor.
  - eapply Htrans; eassumption.
  - auto.
Qed.

Lemma veq_sym (u v : vec) : veq u v -> veq v u.
Proof. apply Forall2_sym_rel. intros x y H. symmetry. exact H. Qed.

Lemma veq_trans (u v w : vec) : veq u v -> veq v w -> veq u w.
Proof. apply Forall2_trans_rel. intros x y z H1 H2. rewrite H1. exact H2. Qed.

Lemma meq_sym (A B : mat) : meq A B -> meq B A.
Proof. apply Forall2_sym_rel. exact veq_sym. Qed.

Lemma meq_trans (A B C : mat) : meq A B -> meq B C -> meq A C.
Proof. apply Forall2_trans_rel. exact veq_trans. Qed.

Lemma sum_upto_zero (n : nat) (f : nat -> Q) :
  (forall k, f k == 0) -> sum_upto n f == 0.
Proof.
  intros Hf. unfold sum_upto. rewrite <- (qsum_map_zero (seq 0 n)).
  apply qsum_map_ext. intros k _. apply Hf.
Qed.

Lemma dot_nil_r (w : vec) : dot w [] = 0.
Proof. destruct w; reflexivity. Qed.

(** [sum_j (w . col_j M) x_j = w . (M x)] *)
Lemma vecmat_dot (n : nat) (M : mat) (w x : vec) :
  sum_upto n (fun j => dot w (col j M) * nth j x 0)
  == dot w (map (fun r => sum_upto n (fun j => nth j r 0 * nth j x 0)) M).
Proof.
  revert w. induction M as [|r M IH]; intros w.
  - simpl. rewrite dot_nil_r. unfold sum_upto.
    rewrite <- (qsum_map_zero (seq 0 n)). apply qsum_map_ext. intros j _. ring.
  - destruct w as [|a w].
    + simpl. unfold sum_upto. rewrite <- (qsum_map_zero (seq 0 n)).
      apply qsum_map_ext. intros j _. ring.
    + simpl. rewrite <- IH. unfold sum_upto.
      rewrite <- qsum_map_scale, <- qsum_map_plus. apply qsum_map_ext. intros j _. ring.
Qed.

Lemma matvec_as_sums (n : nat) (M : mat) (x : vec) :
  Forall (fun r => length r = n) M -> length x = n ->
  veq (matvec M x) (map (fun r => sum_upto n (fun j => nth j r 0 * nth j x 0)) M).
Proof.
  intros HM Hx. unfold matvec. apply Forall2_map_in. intros r Hr.
  rewrite Forall_forall in HM. rewrite dot_as_sum by (rewrite (HM r Hr); lia).
  rewrite (HM r Hr). reflexivity.
Qed.

Lemma dot_map_self {A : Type} (f : A -> Q) (l : list A) :
  dot (map f l) (map f l) == qsum (map (fun a => f a * f a) l).
Proof. induction l as [|a l IH]; simpl; [reflexivity | rewrite IH; reflexivity]. Qed.

Lemma dot_sub_self (u v : vec) :
  length u = length v ->
  dot (zip_with Qminus u v) (zip_with Qminus u v) == dot u u - 2 * dot v u + dot v v.
Proof.
  revert v. induction u as [|a u IH]; intros [|b v] Hlen; simpl in *; try discriminate.
  - ring.
  - rewrite IH by lia. ring.
Qed.

Lemma rows_weighted_jacobian (cost : vec) (J : mat) (n : nat) :
  ncols J = n ->
  length (weighted_jacobian cost J) = length cost
  /\ Forall (fun r => length r = n) (weighted_jacobian cost J).
Proof.
  intros Hn. rewrite (weighted_jacobian_tabulated cost J Hn). unfold tabulate. split.
  - now rewrite length_map, length_seq.
  - apply Forall_forall. intros r Hr. apply in_map_iff in Hr.
    destruct Hr as [k [<- _]]. now rewrite length_map, length_seq.
Qed.

Lemma length_weighted_error (cost error : vec) :
  length (weighted_error cost error) = length cost.
Proof. unfold weighted_error, matvec, diag. now rewrite !length_map, length_seq. Qed.

(** The quadratic part of the objective: [x^T H x = |Jw x|^2 + mu |x|^2]. *)
Lemma quad_form_qp_objective (cost : vec) (lm : Q) (n : nat) (J : mat) (error x : vec) :
  ncols J = n -> (0 < length cost)%nat -> length x = n ->
  QpSpec.quad_form (fst (qp_objective cost lm n J error)) x
  == dot (matvec (weighted_jacobian cost J) x) (matvec (weighted_jacobian cost J) x)
     + lm_mu cost lm error * dot x x.
Proof.
  intros HJ Hc Hx.
  pose proof (ncols_weighted_jacobian cost J Hc HJ) as Hw.
  destruct (@rows_weighted_jacobian cost J n HJ) as [_ Hrows].
  rewrite (qp_objective_tabulated cost lm J error Hw).
  rewrite quad_form_tabulate by exact Hx.
  rewrite (@matvec_as_sums n (weighted_jacobian cost J) x Hrows Hx), dot_map_self.
  fold (row_squares n (weighted_jacobian cost J) x).
  rewrite (dot_as_sum x x eq_refl), Hx.
  rewrite <- gram_quad_form, <- identity_quad_form. unfold sum_upto.
  rewrite <- qsum_map_plus. apply qsum_map_ext. intros i _.
  rewrite <- Qmult_plus_distr_r. apply Qmult_comp; [reflexivity|].
  rewrite <- qsum_map_plus. apply qsum_map_ext. intros j _. ring.
Qed.

(** The linear part: [c . x = - ew . (Jw x)]. *)
Lemma linear_term_qp_objective (cost : vec) (lm : Q) (n : nat) (J : mat) (error x : vec) :
  ncols J = n -> (0 < length cost)%nat -> length x = n ->
  dot (snd (qp_objective cost lm n J error)) x
  == - dot (weighted_error cost error) (matvec (weighted_jacobian cost J) x).
Proof.
  intros HJ Hc Hx.
  pose proof (ncols_weighted_jacobian cost J Hc HJ) as Hw.
  destruct (@rows_weighted_jacobian cost J n HJ) as [_ Hrows].
  rewrite (qp_objective_linear cost lm J error Hw).
  rewrite dot_tab_l by exact Hx.
  rewrite (@matvec_as_sums n (weighted_jacobian cost J) x Hrows Hx).
  rewrite <- dot_vneg_l, <- vecmat_dot. reflexivity.
Qed.

Section WithProvider.

Context {K : Kinematics}.

(** X9.  The objective is the weighted least-squares residual of the
    docstring: for every displacement [x] of the tangent space,
    [x^T H x + 2 c^T x + |ew|^2 = |Jw x - ew|^2 + mu |x|^2], with
    [Jw = diag(cost) J], [ew = diag(cost) (gain e)] and
    [mu = lm_damping |ew|^2]. *)
Theorem objective_is_weighted_residual (self : t) (robot : ConfiguredRobot) (T : SE3) :
  length (cost self) = 6%nat ->
  transform_target_to_world self = Some T ->
  let Jw := weighted_jacobian (cost self) (get_body_jacobian robot (body self)) in
  let ew := weighted_error (cost self) (vscale (gain self) (error_of self robot T)) in
  exists (H : mat) (c : vec),
    fst (compute_qp_objective robot self) = Ok (H, c)
    /\ forall x : vec, length x = robot_nv robot ->
         QpSpec.quad_form H x + 2 * dot c x + dot ew ew
         == dot (zip_with Qminus (matvec Jw x) ew) (zip_with Qminus (matvec Jw x) ew)
            + lm_damping self * dot ew ew * dot x x.
Proof.
  intros Hcost Htarget Jw ew.
  set (J := get_body_jacobian robot (body self)) in *.
  set (err := vscale (gain self) (error_of self robot T)) in *.
  set (obj := qp_objective (cost self) (lm_damping self) (robot_nv robot) J err).
  exists (fst obj), (snd obj). split.
  - rewrite (compute_qp_objective_set self robot Htarget).
    change (Ok obj = Ok (fst obj, snd obj)). now rewrite <- surjective_pairing.
  - intros x Hx.
    assert (HJ : ncols J = robot_nv robot) by apply ncols_body_jacobian.
    assert (Hc : (0 < length (cost self))%nat) by lia.
    unfold obj.
    rewrite (@quad_form_qp_objective (cost self) (lm_damping self) (robot_nv robot) J err x HJ Hc Hx).
    rewrite (@linear_term_qp_objective (cost self) (lm_damping self) (robot_nv robot) J err x HJ Hc Hx).
    fold Jw. fold ew. rewrite lm_mu_eq. fold ew.
    rewrite dot_sub_self.
    + ring.
    + destruct (@rows_weighted_jacobian (cost self) J (robot_nv robot) HJ) as [Hlen _].
      pose proof (length_weighted_error (cost self) err) as Hew.
      unfold matvec. rewrite length_map.
      transitivity (length (cost self)); [exact Hlen | symmetry; exact Hew].
Qed.

(** X10.  A coordinate whose cost is zero has no effect: two
    configurations whose body Jacobians and errors agree on every
    coordinate with a non-zero cost get the same objective. *)
Theorem zero_cost_disables_coordinate (self : t) (robot robot' : ConfiguredRobot) (T : SE3) :
  length (cost self) = 6%nat ->
  transform_target_to_world self = Some T ->
  robot_nv robot = robot_nv robot' ->
  (forall k, (k < 6)%nat -> ~ nth k (cost self) 0 == 0 ->
     nth k (get_body_jacobian robot (body self)) []
     = nth k (get_body_jacobian robot' (body self)) []
     /\ nth k (error_of self robot T) 0 == nth k (error_of self robot' T) 0) ->
  exists (H H' : mat) (c c' : vec),
    fst (compute_qp_objective robot self) = Ok (H, c)
    /\ fst (compute_qp_objective robot' self) = Ok (H', c')
    /\ meq H H' /\ veq c c'.
Proof.
  intros Hcost Htarget Hnv Hagree.
  set (J := get_body_jacobian robot (body self)) in *.
  set (J' := get_body_jacobian robot' (body self)) in *.
  set (e := error_of self robot T) in *.
  set (e' := error_of self robot' T) in *.
  set (n := robot_nv robot).
  set (obj := qp_objective (cost self) (lm_damping self) n J (vscale (gain self) e)).
  set (obj' := qp_objective (cost self) (lm_damping self) n J' (vscale (gain self) e')).
  exists (fst obj), (fst obj'), (snd obj), (snd obj').
  split; [|split].
  - rewrite (compute_qp_objective_set self robot Htarget).
    change (Ok obj = Ok (fst obj, snd obj)). now rewrite <- surjective_pairing.
  - rewrite (compute_qp_objective_set self robot' Htarget). rewrite <- Hnv.
    change (Ok obj' = Ok (fst obj', snd obj')). now rewrite <- surjective_pairing.
  - destruct (@qp_objective_entries (cost self) (gain self) (lm_damping self) n J e Hcost
                (get_body_jacobian_rows robot (body self))
                (ncols_body_jacobian robot (body self)) (length_error_of self robot T))
      as [HH Hc].
    assert (HJ' : ncols J' = n)
      by (unfold n; rewrite Hnv; apply ncols_body_jacobian).
    destruct (@qp_objective_entries (cost self) (gain self) (lm_damping self) n J' e' Hcost
                (get_body_jacobian_rows robot' (body self)) HJ'
                (length_error_of self robot' T))
      as [HH' Hc'].
    assert (HJw : forall k j, (k < 6)%nat ->
              QpSpec.Jw (cost self) J k j == QpSpec.Jw (cost self) J' k j).
    { intros k j Hk. unfold QpSpec.Jw.
      destruct (Qeq_dec (nth k (cost self) 0) 0) as [Hz|Hnz].
      - rewrite Hz. ring.
      - destruct (Hagree k Hk Hnz) as [Hrow _]. rewrite Hrow. reflexivity. }
    assert (Hew : forall k, (k < 6)%nat ->
              QpSpec.ew (cost self) (gain self) e k == QpSpec.ew (cost self) (gain self) e' k).
    { intros k Hk. unfold QpSpec.ew.
      destruct (Qeq_dec (nth k (cost self) 0) 0) as [Hz|Hnz].
      - rewrite Hz. ring.
      - destruct (Hagree k Hk Hnz) as [_ He]. rewrite He. reflexivity. }
    split.
    + apply (meq_trans HH). apply meq_sym. apply (meq_trans HH'). apply meq_sym.
      unfold tabulate. apply Forall2_map_in. intros i _. apply Forall2_map_in. intros j _.
      unfold QpSpec.H, QpSpec.mu.
      assert (E1 : sum_upto 6 (fun k => QpSpec.Jw (cost self) J k i * QpSpec.Jw (cost self) J k j)
                   == sum_upto 6 (fun k => QpSpec.Jw (cost self) J' k i
                                           * QpSpec.Jw (cost self) J' k j)).
      { apply sum_upto_ext. intros k Hk. rewrite (HJw k i Hk), (HJw k j Hk). reflexivity. }
      assert (E2 : sum_upto 6 (fun k => QpSpec.ew (cost self) (gain self) e k
                                        * QpSpec.ew (cost self) (gain self) e k)
                   == sum_upto 6 (fun k => QpSpec.ew (cost self) (gain self) e' k
                                           * QpSpec.ew (cost self) (gain self) e' k)).
      { apply sum_upto_ext. intros k Hk. rewrite (Hew k Hk). reflexivity. }
      rewrite E1, E2. reflexivity.
    + apply (veq_trans Hc). apply veq_sym. apply (veq_trans Hc'). apply veq_sym.
      apply Forall2_map_in. intros j _. unfold QpSpec.c. apply Qopp_comp.
      apply sum_upto_ext. intros k Hk. rewrite (Hew k Hk), (HJw k j Hk). reflexivity.
Qed.

(** X11.  At the target the damping vanishes: when the error is zero,
    the linear term is zero and [H] is [Jw^T Jw] alone. *)
Theorem no_damping_at_target (self : t) (robot : ConfiguredRobot) (T : SE3) :
  length (cost self) = 6%nat ->
  transform_target_to_world self = Some T ->
  Forall (fun x => x == 0) (error_of self robot T) ->
  let J := get_body_jacobian robot (body self) in
  let n := robot_nv robot in
  exists (H : mat) (c : vec),
    fst (compute_qp_objective robot self) = Ok (H, c)
    /\ veq c (repeat 0 n)
    /\ meq H (tabulate n n (fun i j =>
                sum_upto 6 (fun k => QpSpec.Jw (cost self) J k i * QpSpec.Jw (cost self) J k j))).
Proof.
  intros Hcost Htarget Hzero J n.
  set (e := error_of self robot T) in *.
  set (obj := qp_objective (cost self) (lm_damping self) n J (vscale (gain self) e)).
  exists (fst obj), (snd obj). split.
  - rewrite (compute_qp_objective_set self robot Htarget).
    change (Ok obj = Ok (fst obj, snd obj)). now rewrite <- surjective_pairing.
  - destruct (@qp_objective_entries (cost self) (gain self) (lm_damping self) n J e Hcost
                (get_body_jacobian_rows robot (body self))
                (ncols_body_jacobian robot (body self)) (length_error_of self robot T))
      as [HH Hc].
    assert (He : forall k, nth k e 0 == 0).
    { intros k. destruct (Nat.lt_ge_cases k (length e)) as [Hk|Hk].
      - rewrite Forall_forall in Hzero. apply Hzero. apply nth_In. exact Hk.
      - rewrite nth_overflow by exact Hk. reflexivity. }
    assert (Hew : forall k, QpSpec.ew (cost self) (gain self) e k == 0).
    { intros k. unfold QpSpec.ew. rewrite (He k). ring. }
    split.
    + apply (veq_trans Hc).
      replace (repeat 0 n) with (map (fun _ : nat => 0) (seq 0 n)).
      * apply Forall2_map_in. intros j _. unfold QpSpec.c.
        rewrite sum_upto_zero; [ring|]. intros k. rewrite (Hew k). ring.
      * clear. generalize 0%nat. induction n as [|n IH]; intros s; simpl; [reflexivity|].
        now rewrite IH.
    + apply (meq_trans HH). unfold tabulate.
      apply Forall2_map_in. intros i _. apply Forall2_map_in. intros j _.
      unfold QpSpec.H, QpSpec.mu.
      assert (E : sum_upto 6 (fun k => QpSpec.ew (cost self) (gain self) e k
                                       * QpSpec.ew (cost self) (gain self) e k) == 0).
      { apply sum_upto_zero. intros k. rewrite (Hew k). ring. }
      rewrite E. ring.
Qed.

End WithProvider.

(** A slider task that ignores the coordinate along the rail. *)
Definition across_rail_task : BodyTask.t :=
  BodyTask.mk "slider" [0; 1; 1; 1; 1; 1] [0; 0; 0; 0; 0; 0] (1 # 1000000)
              (Some (Slider.target_at 1)) 1.

Lemma objective_is_weighted_residual_witness :
  let self := Slider.task (1 # 1000000) in
  let robot := Slider.at_position 0 in
  let Jw := weighted_jacobian (cost self) (get_body_jacobian robot (body self)) in
  let ew := weighted_error (cost self)
              (vscale (gain self) (error_of self robot (Slider.target_at 1))) in
  exists (H : mat) (c : vec),
    fst (compute_qp_objective robot self) = Ok (H, c)
    /\ forall x : vec, length x = 1%nat ->
         QpSpec.quad_form H x + 2 * dot c x + dot ew ew
         == dot (zip_with Qminus (matvec Jw x) ew) (zip_with Qminus (matvec Jw x) ew)
            + lm_damping self * dot ew ew * dot x x.
Proof.
  exact (@objective_is_weighted_residual Slider.kinematics (Slider.task (1 # 1000000))
           (Slider.at_position 0) (Slider.target_at 1) eq_refl eq_refl).
Defined.

Lemma zero_cost_disables_coordinate_witness :
  exists (H H' : mat) (c c' : vec),
    fst (compute_qp_objective (Slider.at_position 0) across_rail_task) = Ok (H, c)
    /\ fst (compute_qp_objective (Slider.at_position 5) across_rail_task) = Ok (H', c')
    /\ meq H H' /\ veq c c'.
Proof.
  apply (@zero_cost_disables_coordinate Slider.kinematics across_rail_task
           (Slider.at_position 0) (Slider.at_position 5) (Slider.target_at 1)
           eq_refl eq_refl eq_refl).
  intros k Hk Hnz.
  destruct k as [|[|[|[|[|[|k]]]]]]; try lia.
  - exfalso. apply Hnz. reflexivity.
  - split; reflexivity.
  - split; reflexivity.
  - split; reflexivity.
  - split; reflexivity.
  - split; reflexivity.
Defined.

Lemma no_damping_at_target_witness :
  let self := Slider.task (1 # 1000000) in
  let robot := Slider.at_position 1 in
  exists (H : mat) (c : vec),
    fst (compute_qp_objective robot self) = Ok (H, c)
    /\ veq c (repeat 0 1)
    /\ meq H (tabulate 1 1 (fun i j =>
                sum_upto 6 (fun k => QpSpec.Jw (cost self) Slider.jacobian k i
                                     * QpSpec.Jw (cost self) Slider.jacobian k j))).
Proof.
  apply (@no_damping_at_target Slider.kinematics (Slider.task (1 # 1000000))
           (Slider.at_position 1) (Slider.target_at 1) eq_refl eq_refl).
  repeat (constructor; [vm_compute; reflexivity|]). constructor.
Defined.

End QpMeaning.

(** * [BodyTask.compute_task_dynamics] and the shapes handed to the solver *)

Module TaskDynamics.

Import NpFacts QpFacts BodyTask BodyTaskFacts QpObjective.
Local Open Scope Q_scope.

Lemma meq_shape (A : mat) (n m : nat) (h : nat -> nat -> Q) :
  meq A (tabulate n m h) -> length A = n /\ Forall (fun r => length r = m) A.
Proof.
  intros HA. split.
  - pose proof (Forall2_length HA) as Hlen. unfold tabulate in Hlen.
    rewrite length_map, length_seq in Hlen. exact Hlen.
  - unfold tabulate in HA. remember (map _ (seq 0 n)) as B eqn:EB.
    assert (HB : Forall (fun r => length r = m) B).
    { subst B. apply Forall_forall. intros r Hr. apply in_map_iff in Hr.
      destruct Hr as [i [<- _]]. now rewrite length_map, length_seq. }
    clear EB. induction HA as [|r r' A B Hr HA IH]; constructor.
    + inversion HB; subst. pose proof (Forall2_length Hr) as Hlen. lia.
    + apply IH. inversion HB; subst. assumption.
Qed.

Section WithProvider.

Context {K : Kinematics}.

(** X12.  With a target, [compute_task_dynamics] returns a Jacobian of
    6 rows and [nv] columns and an error of 6 entries, the gain times
    the body error it stores; [compute_qp_objective] returns a square
    [H] of size [nv] and a [c] of [nv] entries, and leaves the task as
    [compute_task_dynamics] does; calling either again on the task it
    left changes nothing. *)
Theorem dynamics_and_objective_shapes (self : t) (robot : ConfiguredRobot) (T : SE3) :
  length (cost self) = 6%nat ->
  transform_target_to_world self = Some T ->
  let n := robot_nv robot in
  exists (J : mat) (e : vec) (H : mat) (c : vec) (self' : t),
    compute_task_dynamics robot self = (Ok (J, e), self')
    /\ compute_qp_objective robot self = (Ok (H, c), self')
    /\ length J = 6%nat /\ Forall (fun r => length r = n) J
    /\ length e = 6%nat /\ e = vscale (gain self) (error_in_body self')
    /\ length H = n /\ Forall (fun r => length r = n) H
    /\ length c = n
    /\ compute_task_dynamics robot self' = (Ok (J, e), self')
    /\ compute_qp_objective robot self' = (Ok (H, c), self').
Proof.
  intros Hcost Htarget n.
  set (J := get_body_jacobian robot (body self)).
  set (err := error_of self robot T).
  set (obj := qp_objective (cost self) (lm_damping self) n J (vscale (gain self) err)).
  set (self' := with_error_in_body self err).
  assert (Htarget' : transform_target_to_world self' = Some T) by exact Htarget.
  assert (Hself' : with_error_in_body self' (error_of self' robot T) = self') by reflexivity.
  destruct (@qp_objective_entries (cost self) (gain self) (lm_damping self) n J err Hcost
              (get_body_jacobian_rows robot (body self))
              (ncols_body_jacobian robot (body self)) (length_error_of self robot T))
    as [HH Hc].
  destruct (@meq_shape _ _ _ _ HH) as [HH1 HH2].
  exists J, (vscale (gain self) err), (fst obj), (snd obj), self'.
  repeat split.
  - apply compute_task_dynamics_set. exact Htarget.
  - rewrite (compute_qp_objective_set self robot Htarget).
    change ((Ok obj, self') = (Ok (fst obj, snd obj), self')).
    now rewrite <- surjective_pairing.
  - apply get_body_jacobian_rows.
  - apply get_body_jacobian_cols.
  - unfold vscale. rewrite length_map. apply length_error_of.
  - exact HH1.
  - exact HH2.
  - pose proof (Forall2_length Hc) as Hlen. rewrite length_map, length_seq in Hlen.
    exact Hlen.
  - rewrite (compute_task_dynamics_set self' robot Htarget'). rewrite Hself'. reflexivity.
  - rewrite (compute_qp_objective_set self' robot Htarget'). rewrite Hself'.
    change ((Ok obj, self') = (Ok (fst obj, snd obj), self')).
    now rewrite <- surjective_pairing.
Qed.

End WithProvider.

Lemma dynamics_and_objective_shapes_witness :
  let self := Slider.task (1 # 1000000) in
  let robot := Slider.at_position 0 in
  exists (J : mat) (e : vec) (H : mat) (c : vec) (self' : t),
    compute_task_dynamics robot self = (Ok (J, e), self')
    /\ compute_qp_objective robot self = (Ok (H, c), self')
    /\ length J = 6%nat /\ Forall (fun r => length r = 1%nat) J
    /\ length e = 6%nat /\ e = vscale (gain self) (error_in_body self')
    /\ length H = 1%nat /\ Forall (fun r => length r = 1%nat) H
    /\ length c = 1%nat
    /\ compute_task_dynamics robot self' = (Ok (J, e), self')
    /\ compute_qp_objective robot self' = (Ok (H, c), self').
Proof.
  exact (@dynamics_and_objective_shapes Slider.kinematics (Slider.task (1 # 1000000))
           (Slider.at_position 0) (Slider.target_at 1) eq_refl eq_refl).
Defined.

End TaskDynamics.

(** * [BoundedTangent]: the subspace a constructed object describes *)

Module BoundedTangentSubspace.

Import NpFacts BoundedTangent BoundedTangentFacts BoundedTangentClaims.

(** Joint [a] ends, in the tangent space, before joint [b] starts: the
    layout of the joints of a Pinocchio model, in their order. *)
Definition tangent_before (a b : JointModel) : Prop :=
  (idx_v a + nv a <= idx_v b)%Z.

Lemma dot_unit_row (n k : nat) (v : vec) :
  (k < n)%nat -> length v = n -> (dot (unit_row n k) v == nth k v 0)%Q.
Proof.
  intros Hk Hv. unfold unit_row. rewrite dot_tab_l by exact Hv.
  exact (@sum_upto_delta n k (fun j => nth j v 0%Q) Hk).
Qed.

(** Multiplying by gathered rows of the identity gathers the entries. *)
Lemma matvec_gather (n : nat) (l : list Z) (v : vec) :
  length v = n -> Forall (fun i => (0 <= i < Z.of_nat n)%Z) l ->
  veq (matvec (map (fun i => nth (Z.to_nat i) (eye n) []) l) v)
      (map (fun k => nth (Z.to_nat k) v 0%Q) l).
Proof.
  intros Hv Hrange. unfold matvec. rewrite map_map. apply Forall2_map_in. intros k Hk.
  rewrite Forall_forall in Hrange. specialize (Hrange k Hk).
  rewrite nth_eye by lia. apply dot_unit_row; [lia | exact Hv].
Qed.

Lemma bind_ok {A B : Type} (c : result A) (k : A -> result B) (r : B) :
  bind c k = Ok r -> exists a, c = Ok a /\ k a = Ok r.
Proof. destruct c as [a|e]; simpl; [|discriminate]. intros H. exists a. tauto. Qed.

Lemma getitem_ok {A : Type} (a : list A) (i : Z) (x : A) :
  getitem a i = Ok x ->
  In x a /\ (- Z.of_nat (length a) <= i < Z.of_nat (length a))%Z.
Proof.
  unfold getitem.
  destruct ((- Z.of_nat (length a) <=? i) && (i <? Z.of_nat (length a)))%Z eqn:E;
    [|discriminate].
  apply andb_true_iff in E. destruct E as [E1 E2].
  apply Z.leb_le in E1. apply Z.ltb_lt in E2.
  destruct (nth_error a _) as [y|] eqn:En; [|discriminate].
  intros H. inversion H; subst y. split; [|lia].
  eapply nth_error_In. exact En.
Qed.

Lemma mapM_getitem_ok {A : Type} (a : list A) (l : list Z) (r : list A) :
  mapM (getitem a) l = Ok r ->
  length r = length l
  /\ Forall (fun x => In x a) r
  /\ Forall (fun i => (- Z.of_nat (length a) <= i < Z.of_nat (length a))%Z) l.
Proof.
  revert r. induction l as [|i l IH]; intros r H; simpl in H.
  - inversion H; subst r. repeat split; constructor.
  - destruct (getitem a i) as [x|e] eqn:Ei; simpl in H; [|discriminate].
    destruct (mapM (getitem a) l) as [xs|e] eqn:El; simpl in H; [|discriminate].
    inversion H; subst r. destruct (IH xs eq_refl) as (H1 & H2 & H3).
    destruct (getitem_ok a i Ei) as [Hin Hrange].
    simpl. repeat split; [lia | constructor; assumption | constructor; assumption].
Qed.

Lemma take_ok {A : Type} (a : list A) (idx : index_array) (r : list A) :
  take a idx = Ok r ->
  length r = length (idx_data idx)
  /\ Forall (fun x => In x a) r
  /\ Forall (fun i => (- Z.of_nat (length a) <= i < Z.of_nat (length a))%Z) (idx_data idx).
Proof.
  unfold take. destruct (idx_dtype idx); try discriminate. apply mapM_getitem_ok.
Qed.

Lemma in_eye_length (n : nat) (row : vec) : In row (eye n) -> length row = n.
Proof.
  unfold eye. intros H. apply in_map_iff in H. destruct H as [i [<- _]].
  unfold unit_row. now rewrite length_map, length_seq.
Qed.

(** Strictly increasing lists of integers. *)
Lemma StronglySorted_app {A : Type} (R : A -> A -> Prop) (l1 l2 : list A) :
  StronglySorted R l1 -> StronglySorted R l2 ->
  (forall x y, In x l1 -> In y l2 -> R x y) ->
  StronglySorted R (l1 ++ l2).
Proof.
  intros H1 H2 H12. induction H1 as [|a l1 Hs IH Ha]; simpl; [exact H2|].
  constructor.
  - apply IH. intros x y Hx Hy. apply H12; [right; exact Hx | exact Hy].
  - apply Forall_app. split; [exact Ha|].
    apply Forall_forall. intros y Hy. apply H12; [left; reflexivity | exact Hy].
Qed.

Lemma StronglySorted_filter_keeps {A : Type} (R : A -> A -> Prop) (f : A -> bool) (l : list A) :
  StronglySorted R l -> StronglySorted R (filter f l).
Proof.
  induction 1 as [|a l Hs IH Ha]; simpl; [constructor|].
  destruct (f a); [|exact IH]. constructor; [exact IH|].
  rewrite Forall_forall in *. intros x Hx. apply Ha.
  apply filter_In in Hx. tauto.
Qed.

Lemma py_range_increasing (a b : Z) : StronglySorted Z.lt (py_range a b).
Proof.
  unfold py_range. generalize (Z.to_nat (b - a)) as n. generalize 0%nat as s.
  intros s n. revert s. induction n as [|n IH]; intros s; simpl; constructor.
  - apply IH.
  - apply Forall_forall. intros x Hx. apply in_map_iff in Hx.
    destruct Hx as [k [<- Hk]]. apply in_seq in Hk. lia.
Qed.

Lemma tangent_ranges_increasing (js : list JointModel) :
  StronglySorted tangent_before js ->
  Forall (fun joint => (0 <= nv joint)%Z) js ->
  StronglySorted Z.lt (flat_map tangent_range js).
Proof.
  induction 1 as [|joint js Hs IH Hj]; intros Hnv; simpl; [constructor|].
  inversion Hnv as [|? ? Hnv1 Hnv2]; subst.
  apply StronglySorted_app.
  - apply py_range_increasing.
  - apply IH. exact Hnv2.
  - intros x y Hx Hy. apply in_py_range in Hx.
    apply in_flat_map in Hy. destruct Hy as [joint' [Hin' Hy]].
    apply in_py_range in Hy. rewrite Forall_forall in Hj.
    specialize (Hj joint' Hin'). unfold tangent_before in Hj. lia.
Qed.

Lemma increasing_NoDup (l : list Z) : StronglySorted Z.lt l -> NoDup l.
Proof.
  induction 1 as [|a l Hs IH Ha]; constructor; [|exact IH].
  intros Hin. rewrite Forall_forall in Ha. specialize (Ha a Hin). lia.
Qed.

Lemma increasing_length (l : list Z) (a b : Z) :
  StronglySorted Z.lt l -> (a <= b)%Z -> Forall (fun i => (a <= i < b)%Z) l ->
  (Z.of_nat (length l) <= b - a)%Z.
Proof.
  intros Hs. revert a. induction Hs as [|x l Hs IH Hx]; intros a Hab Hl; simpl length.
  - simpl. lia.
  - inversion Hl as [|? ? Hx1 Hl1]; subst.
    assert (Htail : Forall (fun i => (x + 1 <= i < b)%Z) l).
    { rewrite Forall_forall in *. intros i Hi.
      specialize (Hx i Hi). specialize (Hl1 i Hi). lia. }
    specialize (IH (x + 1)%Z ltac:(lia) Htail). lia.
Qed.

(** X13.  The projection matrix and the velocity limits a constructor
    stores are what [project] computes: [P v] is [project v] on every
    tangent vector, and the velocity limits are the projection of the
    model's. *)
Theorem stored_projections_agree (model : Model) (self : t) :
  well_formed model -> __init__ model = Ok self ->
  (forall (P : mat) (v : vec),
     projection_matrix self = Some P -> length v = model_nv model ->
     exists w : vec, project self v = Ok w /\ veq (matvec P v) w /\ length w = dim self)
  /\ (forall vl : list xfloat,
        velocity_limit self = Some vl -> project self (velocityLimit model) = Ok vl).
Proof.
  intros Hwf Hinit.
  destruct (init_returns Hwf) as (Hrange & Hempty & Hinit').
  rewrite Hinit in Hinit'. inversion Hinit'; subst self. clear Hinit' Hinit.
  cbn [projection_matrix velocity_limit dim] in *.
  set (js := filter (eligible model) (joints model)) in *.
  set (idx := flat_map tangent_range js) in *.
  unfold project. cbn [space_dim indices]. split.
  - intros P v HP Hv. rewrite Hv, Nat.eqb_refl.
    destruct idx as [|i idx'] eqn:E; [discriminate|].
    inversion HP; subst P. clear HP.
    exists (map (fun k => nth (Z.to_nat k) v 0%Q) (i :: idx')). split; [|split].
    + apply take_in_range; [discriminate | rewrite Hv; exact Hrange].
    + exact (@matvec_gather (model_nv model) (i :: idx') v Hv Hrange).
    + now rewrite length_map.
  - intros vl Hvl. rewrite (wf_velocity Hwf), Nat.eqb_refl.
    destruct js as [|j js'] eqn:E; [discriminate|].
    inversion Hvl; subst vl. clear Hvl.
    apply take_in_range; [|rewrite (wf_velocity Hwf); exact Hrange].
    intros Hnil. apply Hempty in Hnil. discriminate Hnil.
Qed.

(** X14.  Whatever the model, an object the constructor returns is
    consistent: [dim] counts the indices; the kept joints are joints of
    the model with a configuration index that is not negative; the
    projection matrix is absent exactly when [dim] is zero, and
    otherwise has [dim] rows over the tangent space; the velocity limits
    are absent exactly when no joint is kept, and otherwise have [dim]
    entries; and every index points into the tangent space. *)
Theorem constructed_is_consistent (model : Model) (self : t) :
  __init__ model = Ok self ->
  dim self = length (idx_data (indices self))
  /\ space_dim self = model_nv model
  /\ (forall joint, In joint (bounded_joints self) ->
        In joint (joints model) /\ (0 <= idx_q joint)%Z)
  /\ (projection_matrix self = None <-> dim self = 0%nat)
  /\ (forall P, projection_matrix self = Some P ->
        length P = dim self /\ Forall (fun row => length row = model_nv model) P)
  /\ (velocity_limit self = None <-> bounded_joints self = [])
  /\ (forall vl, velocity_limit self = Some vl -> length vl = dim self)
  /\ Forall (fun i => (- Z.of_nat (model_nv model) <= i < Z.of_nat (model_nv model))%Z)
            (idx_data (indices self)).
Proof.
  unfold __init__.
  set (js := filter (joint_is_bounded (has_configuration_limit model)) (joints model)).
  set (idx := array_of_ints (collect_indices js)).
  intros Hinit.
  apply bind_ok in Hinit. destruct Hinit as [pm [Hpm Hinit]].
  apply bind_ok in Hinit. destruct Hinit as [vl [Hvl Hinit]].
  inversion Hinit; subst self. clear Hinit.
  cbn [dim indices space_dim bounded_joints projection_matrix velocity_limit].
  assert (Hjs : forall joint, In joint js -> In joint (joints model) /\ (0 <= idx_q joint)%Z).
  { intros joint Hin. apply filter_In in Hin. destruct Hin as [Hin Hb].
    unfold joint_is_bounded in Hb. apply andb_true_iff in Hb.
    destruct Hb as [Hq _]. apply Z.leb_le in Hq. tauto. }
  assert (Hproj : match pm with
                  | None => length (idx_data idx) = 0%nat
                  | Some P => (0 < length (idx_data idx))%nat
                              /\ length P = length (idx_data idx)
                              /\ Forall (fun row => length row = model_nv model) P
                              /\ Forall (fun i => (- Z.of_nat (model_nv model) <= i
                                                   < Z.of_nat (model_nv model))%Z)
                                        (idx_data idx)
                  end).
  { destruct (0 <? length (idx_data idx))%nat eqn:Hdim.
    - apply Nat.ltb_lt in Hdim. unfold fmap in Hpm.
      apply bind_ok in Hpm. destruct Hpm as [P [HP Hpm]].
      inversion Hpm; subst pm. clear Hpm.
      destruct (take_ok _ _ HP) as (HP1 & HP2 & HP3).
      split; [exact Hdim|]. split; [exact HP1|]. split.
      + rewrite Forall_forall in *. intros row Hrow. apply in_eye_length.
        apply HP2. exact Hrow.
      + unfold eye in HP3. rewrite length_map, length_seq in HP3. exact HP3.
    - apply Nat.ltb_ge in Hdim. inversion Hpm; subst pm. lia. }
  assert (Hlim : match vl with
                 | None => js = []
                 | Some l => js <> [] /\ length l = length (idx_data idx)
                 end).
  { destruct (0 <? length js)%nat eqn:Hlen.
    - apply Nat.ltb_lt in Hlen. unfold fmap in Hvl.
      apply bind_ok in Hvl. destruct Hvl as [l [Hl Hvl]].
      inversion Hvl; subst vl. clear Hvl.
      destruct (take_ok _ _ Hl) as (Hl1 & _ & _).
      split; [|exact Hl1]. intros E. rewrite E in Hlen. simpl in Hlen. lia.
    - apply Nat.ltb_ge in Hlen. inversion Hvl; subst vl.
      destruct js; [reflexivity | simpl in Hlen; lia]. }
  split; [reflexivity|]. split; [reflexivity|]. split; [exact Hjs|].
  split.
  { destruct pm as [P|]; cbv beta iota in Hproj; [|tauto].
    split; [discriminate|]. intros E. exfalso.
    change (length (idx_data idx) = 0%nat) in E. lia. }
  split.
  { intros P HP. subst pm. cbv beta iota in Hproj. tauto. }
  split.
  { destruct vl as [l|]; cbv beta iota in Hlim; [|tauto].
    split; [discriminate | intros E; tauto]. }
  split.
  { intros l Hl. subst vl. cbv beta iota in Hlim. tauto. }
  destruct pm as [P|]; cbv beta iota in Hproj; [tauto|].
  destruct (idx_data idx); [constructor | discriminate].
Qed.

(** X15.  On a well-formed model whose joints follow one another in the
    tangent space, the indices are strictly increasing: no tangent
    coordinate is selected twice, and the subspace is no larger than
    the tangent space. *)
Theorem indices_strictly_increasing (model : Model) (self : t) :
  well_formed model ->
  StronglySorted tangent_before (joints model) ->
  __init__ model = Ok self ->
  StronglySorted Z.lt (idx_data (indices self))
  /\ NoDup (idx_data (indices self))
  /\ (dim self <= model_nv model)%nat.
Proof.
  intros Hwf Hsorted Hinit.
  destruct (init_returns Hwf) as (Hrange & _ & Hinit').
  rewrite Hinit in Hinit'. inversion Hinit'; subst self. clear Hinit' Hinit.
  cbn [dim indices]. change (idx_data (array_of_ints ?l)) with l.
  set (js := filter (eligible model) (joints model)) in *.
  assert (Hinc : StronglySorted Z.lt (flat_map tangent_range js)).
  { apply tangent_ranges_increasing.
    - apply StronglySorted_filter_keeps. exact Hsorted.
    - apply Forall_forall. intros joint Hin. apply filter_In in Hin.
      destruct Hin as [Hin He]. apply eligible_spec in He. destruct He as [Hq _].
      pose proof (wf_joints Hwf) as Hall. rewrite Forall_forall in Hall.
      specialize (Hall joint Hin Hq). lia. }
  split; [exact Hinc|]. split; [apply increasing_NoDup; exact Hinc|].
  pose proof (@increasing_length _ 0%Z (Z.of_nat (model_nv model)) Hinc ltac:(lia) Hrange).
  lia.
Qed.

Lemma stored_projections_agree_witness :
  (forall (P : mat) (v : vec),
     projection_matrix arm_subspace = Some P -> length v = model_nv arm ->
     exists w : vec,
       project arm_subspace v = Ok w /\ veq (matvec P v) w /\ length w = dim arm_subspace)
  /\ (forall vl : list xfloat,
        velocity_limit arm_subspace = Some vl
        -> project arm_subspace (velocityLimit arm) = Ok vl).
Proof.
  apply (@stored_projections_agree arm arm_subspace).
  - constructor; try reflexivity.
    apply Forall_forall. intros joint Hin. simpl in Hin.
    repeat (destruct Hin as [<-|Hin]; [simpl; lia|]). contradiction.
  - vm_compute. reflexivity.
Defined.

Lemma constructed_is_consistent_witness :
  dim arm_subspace = length (idx_data (indices arm_subspace))
  /\ space_dim arm_subspace = model_nv arm
  /\ (forall joint, In joint (bounded_joints arm_subspace) ->
        In joint (joints arm) /\ (0 <= idx_q joint)%Z)
  /\ (projection_matrix arm_subspace = None <-> dim arm_subspace = 0%nat)
  /\ (forall P, projection_matrix arm_subspace = Some P ->
        length P = dim arm_subspace /\ Forall (fun row => length row = model_nv arm) P)
  /\ (velocity_limit arm_subspace = None <-> bounded_joints arm_subspace = [])
  /\ (forall vl, velocity_limit arm_subspace = Some vl -> length vl = dim arm_subspace)
  /\ Forall (fun i => (- Z.of_nat (model_nv arm) <= i < Z.of_nat (model_nv arm))%Z)
            (idx_data (indices arm_subspace)).
Proof.
  apply (@constructed_is_consistent arm arm_subspace).
  vm_compute. reflexivity.
Defined.

Lemma indices_strictly_increasing_witness :
  StronglySorted Z.lt (idx_data (indices arm_subspace))
  /\ NoDup (idx_data (indices arm_subspace))
  /\ (dim arm_subspace <= model_nv arm)%nat.
Proof.
  apply (@indices_strictly_increasing arm arm_subspace).
  - constructor; try reflexivity.
    apply Forall_forall. intros joint Hin. simpl in Hin.
    repeat (destruct Hin as [<-|Hin]; [simpl; lia|]). contradiction.
  - repeat constructor; unfold tangent_before; simpl; lia.
  - vm_compute. reflexivity.
Defined.

End BoundedTangentSubspace.

(** * [PositionCBF]: the safe set and the shapes of the outputs *)

Module PositionCBFSafeSet.

Import PositionCBF PositionCBFFacts.
Local Open Scope R_scope.

(** NumPy broadcasting of a bound against the three coordinates of a
    position: an array of one entry stands for all three. *)
Definition broadcast3 (b : rvec) : rvec :=
  match b with
  | [x] => [x; x; x]
  | _ => b
  end.

Lemma np_sub_position_bound (a b c : R) (lo : rvec) :
  np_sub (Some [a; b; c]) (Some lo)
  = if ((length lo =? 1) || (length lo =? 3))%nat
    then Ok (zip_with Rminus [a; b; c] (broadcast3 lo))
    else Raise ValueError.
Proof. destruct lo as [|l1 [|l2 [|l3 [|l4 lo']]]]; reflexivity. Qed.

Lemma np_sub_bound_position (a b c : R) (hi : rvec) :
  np_sub (Some hi) (Some [a; b; c])
  = if ((length hi =? 1) || (length hi =? 3))%nat
    then Ok (zip_with Rminus (broadcast3 hi) [a; b; c])
    else Raise ValueError.
Proof. destruct hi as [|h1 [|h2 [|h3 [|h4 hi']]]]; reflexivity. Qed.

Lemma length_three {A : Type} (l : list A) :
  length l = 3%nat -> exists a b c, l = [a; b; c].
Proof.
  destruct l as [|a [|b [|c [|d l']]]]; simpl; intros H; try discriminate.
  exists a, b, c. reflexivity.
Qed.

Lemma length_broadcast3 (b : rvec) :
  length b = 1%nat \/ length b = 3%nat -> length (broadcast3 b) = 3%nat.
Proof.
  destruct b as [|b1 [|b2 [|b3 [|b4 b']]]]; simpl; intros [H|H];
    try discriminate; reflexivity.
Qed.

Lemma zip_minus_nonneg (u v : rvec) :
  length u = length v ->
  Forall (fun x => 0 <= x) (zip_with Rminus u v) <-> Forall2 Rle v u.
Proof.
  revert v. induction u as [|a u IH]; intros [|b v] Hlen; simpl in *; try discriminate.
  - split; constructor.
  - split; intros H; inversion H; subst; constructor; try lra; apply (IH v); auto.
Qed.

Section WithConfiguration.

Context {F : FrameKinematics}.

(** The barrier once [frame] is assigned, whatever the bounds. *)
Lemma compute_barrier_with_frame (self : t) (name : string)
    (configuration : FrameConfiguration) :
  frame self = Some name ->
  let p := get_transform_frame_to_world_translation configuration name in
  compute_barrier self configuration
  = match p_min self with
    | None => Raise TypeError
    | Some lo =>
        if ((length lo =? 1) || (length lo =? 3))%nat
        then match p_max self with
             | None => Raise TypeError
             | Some hi =>
                 if ((length hi =? 1) || (length hi =? 3))%nat
                 then Ok (zip_with Rminus p (broadcast3 lo)
                          ++ zip_with Rminus (broadcast3 hi) p)
                 else Raise ValueError
             end
        else Raise ValueError
    end.
Proof.
  intros Hf p.
  destruct (length_three _ (translation_length configuration name)) as (a & b & c & Hp).
  unfold compute_barrier, get_frame. rewrite Hf.
  cbn [bind builtin_is_not_None app]. fold p. unfold p in *. rewrite Hp.
  destruct (p_min self) as [lo|]; [|reflexivity].
  rewrite np_sub_position_bound.
  destruct ((length lo =? 1) || (length lo =? 3))%nat; [|reflexivity].
  cbn [bind]. destruct (p_max self) as [hi|]; [|reflexivity].
  rewrite np_sub_bound_position.
  destruct ((length hi =? 1) || (length hi =? 3))%nat; [|reflexivity].
  cbn [bind np_concatenate concat app]. now rewrite app_nil_r.
Qed.

(** X16.  A barrier constructed with both bounds, each of one or three
    entries, and then given its frame: the barrier has [dim] entries,
    and all of them are non-negative exactly when the frame position
    lies between the bounds. *)
Theorem barrier_nonnegative_in_box (frame_arg name : string) (mask_arg : option (list bool))
    (lo hi : rvec) (gain_arg : R) (configuration : FrameConfiguration) :
  length lo = 1%nat \/ length lo = 3%nat ->
  length hi = 1%nat \/ length hi = 3%nat ->
  let self := with_frame (__init__ frame_arg mask_arg (Some lo) (Some hi) gain_arg) name in
  let p := get_transform_frame_to_world_translation configuration name in
  exists h : rvec,
    compute_barrier self configuration = Ok h
    /\ length h = dim self
    /\ (Forall (fun x => 0 <= x) h
        <-> Forall2 Rle (broadcast3 lo) p /\ Forall2 Rle p (broadcast3 hi)).
Proof.
  intros Hlo Hhi self p.
  assert (Hp : length p = 3%nat) by apply translation_length.
  pose proof (length_broadcast3 lo Hlo) as Blo.
  pose proof (length_broadcast3 hi Hhi) as Bhi.
  exists (zip_with Rminus p (broadcast3 lo) ++ zip_with Rminus (broadcast3 hi) p).
  split; [|split].
  - rewrite (@compute_barrier_with_frame self name configuration eq_refl).
    cbn [self with_frame __init__ p_min p_max]. fold p.
    replace ((length lo =? 1) || (length lo =? 3))%nat with true
      by (symmetry; apply orb_true_iff; rewrite !Nat.eqb_eq; exact Hlo).
    replace ((length hi =? 1) || (length hi =? 3))%nat with true
      by (symmetry; apply orb_true_iff; rewrite !Nat.eqb_eq; exact Hhi).
    reflexivity.
  - rewrite length_app, !NpFacts.length_zip_with, Hp, Blo, Bhi. reflexivity.
  - rewrite Forall_app, !zip_minus_nonneg by lia. reflexivity.
Qed.

(** X17.  With [frame] assigned and the bounds one-dimensional arrays:
    whenever [compute_barrier] returns, both bounds are set, each has
    one or three entries, and the barrier has six entries;
    [compute_jacobian] always returns three rows of twice the tangent
    dimension. *)
Theorem barrier_and_jacobian_shapes (self : t) (name : string)
    (configuration : FrameConfiguration) :
  frame self = Some name ->
  (forall h : rvec, compute_barrier self configuration = Ok h ->
     length h = 6%nat
     /\ exists lo hi : rvec,
          p_min self = Some lo /\ p_max self = Some hi
          /\ (length lo = 1%nat \/ length lo = 3%nat)
          /\ (length hi = 1%nat \/ length hi = 3%nat))
  /\ exists J : rmat,
       compute_jacobian self configuration = Ok J
       /\ length J = 3%nat
       /\ Forall (fun row => length row = (2 * frame_nv configuration)%nat) J.
Proof.
  intros Hf. split.
  - intros h Hh. rewrite (compute_barrier_with_frame self configuration Hf) in Hh.
    destruct (p_min self) as [lo|]; [|discriminate].
    destruct ((length lo =? 1) || (length lo =? 3))%nat eqn:Elo; [|discriminate].
    destruct (p_max self) as [hi|]; [|discriminate].
    destruct ((length hi =? 1) || (length hi =? 3))%nat eqn:Ehi; [|discriminate].
    apply orb_true_iff in Elo, Ehi. rewrite !Nat.eqb_eq in Elo, Ehi.
    inversion Hh; subst h. clear Hh. split.
    + rewrite length_app, !NpFacts.length_zip_with, translation_length.
      rewrite (length_broadcast3 lo Elo), (length_broadcast3 hi Ehi). reflexivity.
    + exists lo, hi. tauto.
  - destruct (compute_jacobian_with_frame self configuration Hf) as [HJ Hrows].
    eexists. split; [exact HJ|]. split; [|exact Hrows].
    now rewrite length_map, length_seq.
Qed.

End WithConfiguration.

Lemma barrier_nonnegative_in_box_witness :
  let self := with_frame (__init__ "tool" None (Some [0]) (Some [5; 5; 5]) 1) "tool" in
  let p := Gantry.translation (Gantry.at_position 1 2 3) in
  exists h : rvec,
    compute_barrier self (Gantry.at_position 1 2 3) = Ok h
    /\ length h = dim self
    /\ (Forall (fun x => 0 <= x) h
        <-> Forall2 Rle (broadcast3 [0]) p /\ Forall2 Rle p (broadcast3 [5; 5; 5])).
Proof.
  apply (@barrier_nonnegative_in_box Gantry.kinematics "tool" "tool" None [0] [5; 5; 5] 1
           (Gantry.at_position 1 2 3)).
  - left. reflexivity.
  - right. reflexivity.
Defined.

Lemma barrier_and_jacobian_shapes_witness :
  let self := with_frame (__init__ "tool" None (Some [0]) (Some [5; 5; 5]) 1) "tool" in
  let configuration := Gantry.at_position 1 2 3 in
  (forall h : rvec, compute_barrier self configuration = Ok h ->
     length h = 6%nat
     /\ exists lo hi : rvec,
          p_min self = Some lo /\ p_max self = Some hi
          /\ (length lo = 1%nat \/ length lo = 3%nat)
          /\ (length hi = 1%nat \/ length hi = 3%nat))
  /\ exists J : rmat,
       compute_jacobian self configuration = Ok J
       /\ length J = 3%nat
       /\ Forall (fun row => length row = (2 * 3)%nat) J.
Proof.
  exact (@barrier_and_jacobian_shapes Gantry.kinematics
           (with_frame (__init__ "tool" None (Some [0]) (Some [5; 5; 5]) 1) "tool")
           "tool" (Gantry.at_position 1 2 3) eq_refl).
Defined.

End PositionCBFSafeSet.
